(** * Student-life-hub: the chat page's session state

    A shallow embedding of [frontend/src/pages/ChatPage.tsx]: the React
    state of the [ChatPage] component, its event handlers and the
    continuations of its asynchronous calls, as functions on an explicit
    state.  Promises that are awaited are kept in the state as pools of
    suspended calls; an event completes one of them. *)

From Stdlib Require Import NArith String Ascii DecimalN.
From stdpp Require Import base decidable option numbers list gmap.

Open Scope N_scope.
Open Scope list_scope.

(** ** JavaScript strings

    A JavaScript string is a sequence of UTF-16 code units. *)

Abbreviation jsstring := (list N).

Fixpoint js (s : string) : jsstring :=
  match s with
  | EmptyString => []
  | String c s' => N_of_ascii c :: js s'
  end.

Arguments js : simpl never.

(** A string is truthy when it is not empty. *)
Definition truthy (s : jsstring) : bool :=
  match s with [] => false | _ :: _ => true end.

(** [a || b] on strings. *)
Definition orElse (a b : jsstring) : jsstring := if truthy a then a else b.

(** ECMAScript [WhiteSpace] and [LineTerminator] code units, the ones
    [String.prototype.trim] strips. *)
Definition isWhiteSpace (c : N) : bool :=
  (c =? 9) || (c =? 10) || (c =? 11) || (c =? 12) || (c =? 13) || (c =? 32)
  || (c =? 160) || (c =? 5760) || ((8192 <=? c) && (c <=? 8202))
  || (c =? 8232) || (c =? 8233) || (c =? 8239) || (c =? 8287)
  || (c =? 12288) || (c =? 65279).

Fixpoint trimStart (s : jsstring) : jsstring :=
  match s with
  | [] => []
  | c :: s' => if isWhiteSpace c then trimStart s' else s
  end.

Definition trimEnd (s : jsstring) : jsstring := rev (trimStart (rev s)).

Definition trim (s : jsstring) : jsstring := trimEnd (trimStart s).

Fixpoint startsWith (p s : jsstring) : bool :=
  match p, s with
  | [], _ => true
  | _ :: _, [] => false
  | a :: p', b :: s' => if decide (a = b) then startsWith p' s' else false
  end.

(** Decimal rendering of a non-negative integer, as a template literal
    renders a number. *)
Fixpoint digits (d : Decimal.uint) : jsstring :=
  match d with
  | Decimal.Nil => []
  | Decimal.D0 d => 48 :: digits d
  | Decimal.D1 d => 49 :: digits d
  | Decimal.D2 d => 50 :: digits d
  | Decimal.D3 d => 51 :: digits d
  | Decimal.D4 d => 52 :: digits d
  | Decimal.D5 d => 53 :: digits d
  | Decimal.D6 d => 54 :: digits d
  | Decimal.D7 d => 55 :: digits d
  | Decimal.D8 d => 56 :: digits d
  | Decimal.D9 d => 57 :: digits d
  end.

Definition numberToString (n : N) : jsstring := digits (N.to_uint n).

(** ** Data model ([@/types], as the page uses it) *)

Inductive RoomType := global | private.

Module ChatRoom.
Record t := mk {
  id : jsstring;
  name : jsstring;
  code : jsstring;
  type : RoomType;
  members : list jsstring;
  createdBy : jsstring;
  createdAt : jsstring;
  maxMembers : N;
  unreadCount : N
}.
End ChatRoom.

Module ChatMessage.
Record t := mk {
  id : jsstring;
  userId : jsstring;
  username : jsstring;
  content : jsstring;
  timestamp : jsstring;
  roomId : jsstring;
  isModerated : bool
}.
End ChatMessage.

Record User := { uid : jsstring; displayName : option jsstring }.

Record Toast := { title : jsstring; description : jsstring; variant : jsstring }.

(** One result of [Math.random()], through the two observations the page
    makes of it. *)
Record Random := {
  scaled : N;          (* Math.floor(x * 9999) *)
  base36 : jsstring    (* x.toString(36).substr(2, 9) *)
}.

(** What a suspended [sendMessage] keeps across its [await]. *)
Record SendCall := {
  tempId : jsstring;
  messageText : jsstring;
  (* the arguments of api.sendRoomMessage *)
  sentRoomId : jsstring;
  sentUsername : option jsstring
}.

Global Instance RoomType_eq_dec : EqDecision RoomType.
Proof. solve_decision. Defined.
Global Instance ChatRoom_eq_dec : EqDecision ChatRoom.t.
Proof. solve_decision. Defined.
Global Instance ChatMessage_eq_dec : EqDecision ChatMessage.t.
Proof. solve_decision. Defined.

(** ** The component's state

    The [useState] cells of [ChatPage] (the four dialog cells, which only
    toggle dialogs, are left out), what the page reads from its
    surroundings, and the calls that are awaiting an answer. *)

Record State := {
  rooms : list ChatRoom.t;
  activeRoomId : jsstring;
  messages : list ChatMessage.t;
  newMessage : jsstring;
  isLoading : bool;
  isSending : bool;
  currentUsername : jsstring;
  chatDisplayName : jsstring;
  (* surroundings *)
  currentUser : option User;                (* useAuth() *)
  sessionStorage : gmap (list N) (list N);
  setItemLog : list (jsstring * jsstring);  (* the sessionStorage.setItem calls made *)
  toasts : list Toast;                      (* the toast() calls made *)
  entropy : nat -> Random;                  (* the results Math.random() will give *)
  drawn : nat;                              (* how many were taken *)
  (* suspended calls *)
  roomsCalls : nat;                         (* api.getChatRooms() *)
  profileCalls : nat;                       (* api.getChatProfile() *)
  messagesCalls : list jsstring;            (* api.getRoomMessages(roomId) *)
  sendCalls : list SendCall                 (* api.sendRoomMessage(...) *)
}.

Section Setters.
Variable s : State.

Definition setRooms (f : list ChatRoom.t -> list ChatRoom.t) : State :=
  {| rooms := f (rooms s); activeRoomId := activeRoomId s; messages := messages s;
     newMessage := newMessage s; isLoading := isLoading s; isSending := isSending s;
     currentUsername := currentUsername s; chatDisplayName := chatDisplayName s;
     currentUser := currentUser s; sessionStorage := sessionStorage s;
     setItemLog := setItemLog s; toasts := toasts s; entropy := entropy s;
     drawn := drawn s; roomsCalls := roomsCalls s; profileCalls := profileCalls s;
     messagesCalls := messagesCalls s; sendCalls := sendCalls s |}.

Definition writeActiveRoomId (r : jsstring) : State :=
  {| rooms := rooms s; activeRoomId := r; messages := messages s;
     newMessage := newMessage s; isLoading := isLoading s; isSending := isSending s;
     currentUsername := currentUsername s; chatDisplayName := chatDisplayName s;
     currentUser := currentUser s; sessionStorage := sessionStorage s;
     setItemLog := setItemLog s; toasts := toasts s; entropy := entropy s;
     drawn := drawn s; roomsCalls := roomsCalls s; profileCalls := profileCalls s;
     messagesCalls := messagesCalls s; sendCalls := sendCalls s |}.

Definition setMessages (f : list ChatMessage.t -> list ChatMessage.t) : State :=
  {| rooms := rooms s; activeRoomId := activeRoomId s; messages := f (messages s);
     newMessage := newMessage s; isLoading := isLoading s; isSending := isSending s;
     currentUsername := currentUsername s; chatDisplayName := chatDisplayName s;
     currentUser := currentUser s; sessionStorage := sessionStorage s;
     setItemLog := setItemLog s; toasts := toasts s; entropy := entropy s;
     drawn := drawn s; roomsCalls := roomsCalls s; profileCalls := profileCalls s;
     messagesCalls := messagesCalls s; sendCalls := sendCalls s |}.

Definition setNewMessage (v : jsstring) : State :=
  {| rooms := rooms s; activeRoomId := activeRoomId s; messages := messages s;
     newMessage := v; isLoading := isLoading s; isSending := isSending s;
     currentUsername := currentUsername s; chatDisplayName := chatDisplayName s;
     currentUser := currentUser s; sessionStorage := sessionStorage s;
     setItemLog := setItemLog s; toasts := toasts s; entropy := entropy s;
     drawn := drawn s; roomsCalls := roomsCalls s; profileCalls := profileCalls s;
     messagesCalls := messagesCalls s; sendCalls := sendCalls s |}.

Definition setIsLoading (b : bool) : State :=
  {| rooms := rooms s; activeRoomId := activeRoomId s; messages := messages s;
     newMessage := newMessage s; isLoading := b; isSending := isSending s;
     currentUsername := currentUsername s; chatDisplayName := chatDisplayName s;
     currentUser := currentUser s; sessionStorage := sessionStorage s;
     setItemLog := setItemLog s; toasts := toasts s; entropy := entropy s;
     drawn := drawn s; roomsCalls := roomsCalls s; profileCalls := profileCalls s;
     messagesCalls := messagesCalls s; sendCalls := sendCalls s |}.

Definition setIsSending (b : bool) : State :=
  {| rooms := rooms s; activeRoomId := activeRoomId s; messages := messages s;
     newMessage := newMessage s; isLoading := isLoading s; isSending := b;
     currentUsername := currentUsername s; chatDisplayName := chatDisplayName s;
     currentUser := currentUser s; sessionStorage := sessionStorage s;
     setItemLog := setItemLog s; toasts := toasts s; entropy := entropy s;
     drawn := drawn s; roomsCalls := roomsCalls s; profileCalls := profileCalls s;
     messagesCalls := messagesCalls s; sendCalls := sendCalls s |}.

Definition setCurrentUsername (v : jsstring) : State :=
  {| rooms := rooms s; activeRoomId := activeRoomId s; messages := messages s;
     newMessage := newMessage s; isLoading := isLoading s; isSending := isSending s;
     currentUsername := v; chatDisplayName := chatDisplayName s;
     currentUser := currentUser s; sessionStorage := sessionStorage s;
     setItemLog := setItemLog s; toasts := toasts s; entropy := entropy s;
     drawn := drawn s; roomsCalls := roomsCalls s; profileCalls := profileCalls s;
     messagesCalls := messagesCalls s; sendCalls := sendCalls s |}.

Definition setChatDisplayName (v : jsstring) : State :=
  {| rooms := rooms s; activeRoomId := activeRoomId s; messages := messages s;
     newMessage := newMessage s; isLoading := isLoading s; isSending := isSending s;
     currentUsername := currentUsername s; chatDisplayName := v;
     currentUser := currentUser s; sessionStorage := sessionStorage s;
     setItemLog := setItemLog s; toasts := toasts s; entropy := entropy s;
     drawn := drawn s; roomsCalls := roomsCalls s; profileCalls := profileCalls s;
     messagesCalls := messagesCalls s; sendCalls := sendCalls s |}.

(** [sessionStorage.setItem(k, v)] *)
Definition setItem (k v : jsstring) : State :=
  {| rooms := rooms s; activeRoomId := activeRoomId s; messages := messages s;
     newMessage := newMessage s; isLoading := isLoading s; isSending := isSending s;
     currentUsername := currentUsername s; chatDisplayName := chatDisplayName s;
     currentUser := currentUser s; sessionStorage := <[k := v]> (sessionStorage s);
     setItemLog := setItemLog s ++ [(k, v)]; toasts := toasts s; entropy := entropy s;
     drawn := drawn s; roomsCalls := roomsCalls s; profileCalls := profileCalls s;
     messagesCalls := messagesCalls s; sendCalls := sendCalls s |}.

Definition toast (t : Toast) : State :=
  {| rooms := rooms s; activeRoomId := activeRoomId s; messages := messages s;
     newMessage := newMessage s; isLoading := isLoading s; isSending := isSending s;
     currentUsername := currentUsername s; chatDisplayName := chatDisplayName s;
     currentUser := currentUser s; sessionStorage := sessionStorage s;
     setItemLog := setItemLog s; toasts := toasts s ++ [t]; entropy := entropy s;
     drawn := drawn s; roomsCalls := roomsCalls s; profileCalls := profileCalls s;
     messagesCalls := messagesCalls s; sendCalls := sendCalls s |}.

(** [Math.random()]: the next result, and the state with it taken. *)
Definition Math_random : Random * State :=
  (entropy s (drawn s),
   {| rooms := rooms s; activeRoomId := activeRoomId s; messages := messages s;
      newMessage := newMessage s; isLoading := isLoading s; isSending := isSending s;
      currentUsername := currentUsername s; chatDisplayName := chatDisplayName s;
      currentUser := currentUser s; sessionStorage := sessionStorage s;
      setItemLog := setItemLog s; toasts := toasts s; entropy := entropy s;
      drawn := S (drawn s); roomsCalls := roomsCalls s; profileCalls := profileCalls s;
      messagesCalls := messagesCalls s; sendCalls := sendCalls s |}).

Definition withRoomsCalls (n : nat) : State :=
  {| rooms := rooms s; activeRoomId := activeRoomId s; messages := messages s;
     newMessage := newMessage s; isLoading := isLoading s; isSending := isSending s;
     currentUsername := currentUsername s; chatDisplayName := chatDisplayName s;
     currentUser := currentUser s; sessionStorage := sessionStorage s;
     setItemLog := setItemLog s; toasts := toasts s; entropy := entropy s;
     drawn := drawn s; roomsCalls := n; profileCalls := profileCalls s;
     messagesCalls := messagesCalls s; sendCalls := sendCalls s |}.

Definition withProfileCalls (n : nat) : State :=
  {| rooms := rooms s; activeRoomId := activeRoomId s; messages := messages s;
     newMessage := newMessage s; isLoading := isLoading s; isSending := isSending s;
     currentUsername := currentUsername s; chatDisplayName := chatDisplayName s;
     currentUser := currentUser s; sessionStorage := sessionStorage s;
     setItemLog := setItemLog s; toasts := toasts s; entropy := entropy s;
     drawn := drawn s; roomsCalls := roomsCalls s; profileCalls := n;
     messagesCalls := messagesCalls s; sendCalls := sendCalls s |}.

Definition withMessagesCalls (l : list jsstring) : State :=
  {| rooms := rooms s; activeRoomId := activeRoomId s; messages := messages s;
     newMessage := newMessage s; isLoading := isLoading s; isSending := isSending s;
     currentUsername := currentUsername s; chatDisplayName := chatDisplayName s;
     currentUser := currentUser s; sessionStorage := sessionStorage s;
     setItemLog := setItemLog s; toasts := toasts s; entropy := entropy s;
     drawn := drawn s; roomsCalls := roomsCalls s; profileCalls := profileCalls s;
     messagesCalls := l; sendCalls := sendCalls s |}.

Definition withSendCalls (l : list SendCall) : State :=
  {| rooms := rooms s; activeRoomId := activeRoomId s; messages := messages s;
     newMessage := newMessage s; isLoading := isLoading s; isSending := isSending s;
     currentUsername := currentUsername s; chatDisplayName := chatDisplayName s;
     currentUser := currentUser s; sessionStorage := sessionStorage s;
     setItemLog := setItemLog s; toasts := toasts s; entropy := entropy s;
     drawn := drawn s; roomsCalls := roomsCalls s; profileCalls := profileCalls s;
     messagesCalls := messagesCalls s; sendCalls := l |}.
End Setters.

(** ** The session username ([getSessionUsername])

    A closure reads [currentUsername] as its render saw it ([snap]), while
    [sessionStorage] is read and written as it is now ([s]). *)

Definition getSessionUsername (snap s : State) : jsstring * State :=
  if truthy (currentUsername snap) then (currentUsername snap, s)
  else
    let storedUsername := sessionStorage s !! js "chatUsername" in
    if truthy (default [] storedUsername) then
      (default [] storedUsername, setCurrentUsername s (default [] storedUsername))
    else
      let '(x, s1) := Math_random s in
      let newUsername := js "Student" ++ numberToString (scaled x + 1) in
      let s2 := setItem s1 (js "chatUsername") newUsername in
      (newUsername, setCurrentUsername s2 newUsername).

(** ** Loading the rooms ([loadChatRooms]) *)

Definition loadChatRooms (s : State) : State :=
  match currentUser s with
  | None => s
  | Some _ => withRoomsCalls s (S (roomsCalls s))
  end.

Definition defaultGlobalRoom (now : jsstring) : ChatRoom.t :=
  {| ChatRoom.id := js "global";
     ChatRoom.name := js "Global Chat";
     ChatRoom.code := js "GLOBAL";
     ChatRoom.type := global;
     ChatRoom.members := [];
     ChatRoom.createdBy := js "system";
     ChatRoom.createdAt := now;
     ChatRoom.maxMembers := 1000;
     ChatRoom.unreadCount := 0 |}.

(** After [await api.getChatRooms()] resolved with [response]; [now] is
    [new Date().toISOString()]. *)
Definition loadChatRooms_then (response_rooms : option (list ChatRoom.t))
    (now : jsstring) (s : State) : State :=
  let s1 := setRooms s (fun _ => default [] response_rooms) in
  let globalRoom :=
    response_rooms ≫=
      List.find (fun room => bool_decide (ChatRoom.id room = js "global")) in
  match globalRoom with
  | Some _ => s1
  | None => setRooms s1 (fun prev => prev ++ [defaultGlobalRoom now])
  end.

(** After [await api.getChatRooms()] rejected. *)
Definition loadChatRooms_catch (s : State) : State :=
  toast s {| title := js "Error";
             description := js "Failed to load chat rooms";
             variant := js "destructive" |}.

(** ** Loading the chat profile ([loadChatProfile]) *)

Definition loadChatProfile (s : State) : State :=
  match currentUser s with
  | None => s
  | Some _ => withProfileCalls s (S (profileCalls s))
  end.

Definition userDisplayName (s : State) : jsstring :=
  default [] (currentUser s ≫= displayName).

(** [profileName] is [response.profile?.chatDisplayName]. *)
Definition loadChatProfile_then (profileName : option jsstring) (s : State) : State :=
  setChatDisplayName s
    (orElse (default [] profileName) (orElse (userDisplayName s) (js "You"))).

Definition loadChatProfile_catch (s : State) : State :=
  setChatDisplayName s (orElse (userDisplayName s) (js "You")).

(** ** Loading a room's messages ([loadRoomMessages]) *)

Definition loadRoomMessages (roomId : jsstring) (s : State) : State :=
  let s1 := setIsLoading s true in
  withMessagesCalls s1 (messagesCalls s1 ++ [roomId]).

Definition loadRoomMessages_then (response_messages : option (list ChatMessage.t))
    (s : State) : State :=
  let s1 := setMessages s (fun _ => default [] response_messages) in
  setIsLoading s1 false.

Definition loadRoomMessages_catch (s : State) : State :=
  let s1 := toast s {| title := js "Error";
                       description := js "Failed to load messages";
                       variant := js "destructive" |} in
  setIsLoading s1 false.

(** [setActiveRoomId(r)] together with the effect that depends on
    [activeRoomId]: when the value changes the page renders again and the
    effect loads the messages of the new room. *)
Definition setActiveRoomId (r : jsstring) (s : State) : State :=
  if decide (r = activeRoomId s) then s
  else
    let s1 := writeActiveRoomId s r in
    if truthy r then loadRoomMessages r s1 else s1.

(** ** Sending ([sendMessage]) *)

Definition sendMessage (nowMs : N) (nowIso : jsstring) (s : State) : State :=
  match currentUser s with
  | None => s
  | Some user =>
    if negb (truthy (trim (newMessage s))) || isSending s then s
    else
      let messageText := trim (newMessage s) in
      let s1 := setNewMessage s [] in
      let s2 := setIsSending s1 true in
      (* optimistic message *)
      let '(x, s3) := Math_random s2 in
      let tempId := js "temp_" ++ numberToString nowMs ++ js "_" ++ base36 x in
      let '(name, s4) :=
        if decide (activeRoomId s = js "global")
        then getSessionUsername s s3
        else (chatDisplayName s, s3) in
      let optimisticMessage :=
        {| ChatMessage.id := tempId;
           ChatMessage.userId := uid user;
           ChatMessage.username := name;
           ChatMessage.content := messageText;
           ChatMessage.timestamp := nowIso;
           ChatMessage.roomId := activeRoomId s;
           ChatMessage.isModerated := false |} in
      let s5 := setMessages s4 (fun prev => prev ++ [optimisticMessage]) in
      (* api.sendRoomMessage is called and awaited *)
      let '(anonymous, s6) :=
        if decide (activeRoomId s = js "global")
        then let '(n, s') := getSessionUsername s s5 in (Some n, s')
        else (None, s5) in
      withSendCalls s6
        (sendCalls s6 ++ [ {| tempId := tempId; messageText := messageText;
                              sentRoomId := activeRoomId s;
                              sentUsername := anonymous |} ])
  end.

(** After the send resolved with [response.message]. *)
Definition sendMessage_then (c : SendCall) (response_message : ChatMessage.t)
    (s : State) : State :=
  let s1 := setMessages s (fun prev =>
              (fun msg => if decide (ChatMessage.id msg = tempId c)
                          then response_message else msg) <$> prev) in
  setIsSending s1 false.

(** After the send rejected. *)
Definition sendMessage_catch (c : SendCall) (s : State) : State :=
  let s1 := setMessages s (fun prev =>
              filter (fun msg => ChatMessage.id msg <> tempId c) prev) in
  let s2 := setNewMessage s1 (messageText c) in
  let s3 := toast s2 {| title := js "Error";
                        description := js "Failed to send message";
                        variant := js "destructive" |} in
  setIsSending s3 false.

(** ** Room events *)

Definition handleRoomSelect (roomId : jsstring) (s : State) : State :=
  setActiveRoomId roomId s.

Definition handleRoomCreated (room : ChatRoom.t) (s : State) : State :=
  let s1 := setRooms s (fun prev => prev ++ [room]) in
  setActiveRoomId (ChatRoom.id room) s1.

Definition handleRoomJoined (room : ChatRoom.t) (s : State) : State :=
  let s1 := setRooms s (fun prev => prev ++ [room]) in
  setActiveRoomId (ChatRoom.id room) s1.

Definition handleRoomUpdated (updatedRoom : ChatRoom.t) (s : State) : State :=
  setRooms s (fun prev =>
    (fun room => if decide (ChatRoom.id room = ChatRoom.id updatedRoom)
                 then updatedRoom else room) <$> prev).

Definition handleRoomLeft (roomId : jsstring) (s : State) : State :=
  let s1 := setRooms s (fun prev =>
              filter (fun room => ChatRoom.id room <> roomId) prev) in
  if decide (activeRoomId s = roomId) then setActiveRoomId (js "global") s1 else s1.

Definition handleRoomDeleted (roomId : jsstring) (s : State) : State :=
  let s1 := setRooms s (fun prev =>
              filter (fun room => ChatRoom.id room <> roomId) prev) in
  if decide (activeRoomId s = roomId) then setActiveRoomId (js "global") s1 else s1.

(** ** Rendering the message list *)

Definition isOwnMessage (snap : State) (message : ChatMessage.t) (s : State)
    : bool * State :=
  match currentUser snap with
  | None => (false, s)
  | Some user =>
    if decide (activeRoomId snap = js "global")
    then let '(n, s1) := getSessionUsername snap s in
         (bool_decide (ChatMessage.username message = n), s1)
    else (bool_decide (ChatMessage.userId message = uid user), s)
  end.

Definition isPending (message : ChatMessage.t) : bool :=
  startsWith (js "temp_") (ChatMessage.id message).

Fixpoint renderMessages (snap : State) (ms : list ChatMessage.t) (s : State)
    : list (bool * bool) * State :=
  match ms with
  | [] => ([], s)
  | message :: ms' =>
    let '(own, s1) := isOwnMessage snap message s in
    let '(rest, s2) := renderMessages snap ms' s1 in
    ((own, isPending message) :: rest, s2)
  end.

(** One render: for each message shown, whether it is the caller's own
    and whether it is pending. *)
Definition render (s : State) : list (bool * bool) * State :=
  if isLoading s then ([], s) else renderMessages s (messages s) s.

(** ** Events

    What can happen to a mounted page: the user acts, a dialog reports a
    room event, an awaited call is answered, the page renders.  An event
    that answers a call names the suspended call by its position in the
    pool; an event for which no call is suspended changes nothing. *)

Inductive Event :=
  | Typed (value : jsstring)
  | Submit (nowMs : N) (nowIso : jsstring)
  | SendResolved (i : nat) (response_message : ChatMessage.t)
  | SendRejected (i : nat)
  | RoomSelect (roomId : jsstring)
  | MessagesResolved (i : nat) (response_messages : option (list ChatMessage.t))
  | MessagesRejected (i : nat)
  | RoomsResolved (response_rooms : option (list ChatRoom.t)) (nowIso : jsstring)
  | RoomsRejected
  | ProfileResolved (profileName : option jsstring)
  | ProfileRejected
  | RoomCreated (room : ChatRoom.t)
  | RoomJoined (room : ChatRoom.t)
  | RoomUpdated (updatedRoom : ChatRoom.t)
  | RoomLeft (roomId : jsstring)
  | RoomDeleted (roomId : jsstring)
  | Rendered.

Definition step (s : State) (e : Event) : State :=
  match e with
  | Typed value =>
    (* the input is disabled while sending and takes at most 500 code units *)
    if isSending s || negb (bool_decide (length value <= 500)%nat) then s
    else setNewMessage s value
  | Submit nowMs nowIso => sendMessage nowMs nowIso s
  | SendResolved i response_message =>
    match sendCalls s !! i with
    | Some c => sendMessage_then c response_message
                  (withSendCalls s (delete i (sendCalls s)))
    | None => s
    end
  | SendRejected i =>
    match sendCalls s !! i with
    | Some c => sendMessage_catch c (withSendCalls s (delete i (sendCalls s)))
    | None => s
    end
  | RoomSelect roomId => handleRoomSelect roomId s
  | MessagesResolved i response_messages =>
    match messagesCalls s !! i with
    | Some _ => loadRoomMessages_then response_messages
                  (withMessagesCalls s (delete i (messagesCalls s)))
    | None => s
    end
  | MessagesRejected i =>
    match messagesCalls s !! i with
    | Some _ => loadRoomMessages_catch
                  (withMessagesCalls s (delete i (messagesCalls s)))
    | None => s
    end
  | RoomsResolved response_rooms nowIso =>
    match roomsCalls s with
    | S n => loadChatRooms_then response_rooms nowIso (withRoomsCalls s n)
    | O => s
    end
  | RoomsRejected =>
    match roomsCalls s with
    | S n => loadChatRooms_catch (withRoomsCalls s n)
    | O => s
    end
  | ProfileResolved profileName =>
    match profileCalls s with
    | S n => loadChatProfile_then profileName (withProfileCalls s n)
    | O => s
    end
  | ProfileRejected =>
    match profileCalls s with
    | S n => loadChatProfile_catch (withProfileCalls s n)
    | O => s
    end
  | RoomCreated room => handleRoomCreated room s
  | RoomJoined room => handleRoomJoined room s
  | RoomUpdated updatedRoom => handleRoomUpdated updatedRoom s
  | RoomLeft roomId => handleRoomLeft roomId s
  | RoomDeleted roomId => handleRoomDeleted roomId s
  | Rendered => (render s).2
  end.

Definition run (s : State) (es : list Event) : State := foldl step s es.

(** The state a fresh [ChatPage] starts from. *)
Definition initialState (user : option User) (storage : gmap (list N) (list N))
    (rand : nat -> Random) : State :=
  {| rooms := []; activeRoomId := js "global"; messages := [];
     newMessage := []; isLoading := false; isSending := false;
     currentUsername := []; chatDisplayName := [];
     currentUser := user; sessionStorage := storage; setItemLog := [];
     toasts := []; entropy := rand; drawn := 0;
     roomsCalls := 0; profileCalls := 0; messagesCalls := []; sendCalls := [] |}.

(** The page once mounted: its first render and the effects after it. *)
Definition mount (user : option User) (storage : gmap (list N) (list N))
    (rand : nat -> Random) : State :=
  let s0 := initialState user storage rand in
  let s1 := match currentUser s0 with
            | Some _ => loadChatProfile (loadChatRooms s0)
            | None => s0
            end in
  if truthy (activeRoomId s1) then loadRoomMessages (activeRoomId s1) s1 else s1.

(** ** Measures used in the statements *)

Definition roomIdCount (rid : jsstring) (l : list ChatRoom.t) : nat :=
  length (filter (fun room => ChatRoom.id room = rid) l).

Definition pendingCount (l : list ChatMessage.t) : nat :=
  length (filter (fun m => isPending m = true) l).

(** The messages an answer of the service carries have identifiers given
    by the server, none of the pending kind. *)
Definition serverMessages (l : list ChatMessage.t) : Prop :=
  Forall (fun m => isPending m = false) l.

Definition fromServer (e : Event) : Prop :=
  match e with
  | SendResolved _ m => isPending m = false
  | MessagesResolved _ ms => serverMessages (default [] ms)
  | _ => True
  end.

(** ** Views and invariants used in the proofs *)

Definition storedUsername (s : State) : jsstring :=
  default [] (sessionStorage s !! js "chatUsername").

(** Two states agree on everything but the session username, the
    session storage and the random results taken. *)
Definition sameChat (s s' : State) : Prop :=
  rooms s' = rooms s /\ activeRoomId s' = activeRoomId s
  /\ messages s' = messages s /\ newMessage s' = newMessage s
  /\ isLoading s' = isLoading s /\ isSending s' = isSending s
  /\ chatDisplayName s' = chatDisplayName s /\ currentUser s' = currentUser s
  /\ toasts s' = toasts s /\ roomsCalls s' = roomsCalls s
  /\ profileCalls s' = profileCalls s /\ messagesCalls s' = messagesCalls s
  /\ sendCalls s' = sendCalls s.

(** What the render decides for one message, given the session username
    the closure resolves. *)
Definition ownFlag (snap : State) (user : User) (resolved : jsstring)
    (m : ChatMessage.t) : bool :=
  if decide (activeRoomId snap = js "global")
  then bool_decide (ChatMessage.username m = resolved)
  else bool_decide (ChatMessage.userId m = uid user).

(** The submit goes through when somebody is signed in, the trimmed input
    is not empty and no send is awaiting its answer. *)
Definition accepted (s : State) : Prop :=
  is_Some (currentUser s) /\ truthy (trim (newMessage s)) = true
  /\ isSending s = false.

(** The identifier [sendMessage] gives its optimistic message. *)
Definition tempIdOf (nowMs : N) (s : State) : jsstring :=
  js "temp_" ++ numberToString nowMs ++ js "_" ++ base36 (entropy s (drawn s)).

(** The part of the state that sending works on. *)
Definition sendView (s : State) : list ChatMessage.t * list SendCall * bool :=
  (messages s, sendCalls s, isSending s).

(** Events that neither answer a send nor bring a message history. *)
Definition quiet (e : Event) : Prop :=
  match e with
  | SendResolved _ _ | SendRejected _ | MessagesResolved _ _ => False
  | _ => True
  end.

(** While no send is awaiting its answer the list has no pending message;
    while one is, the page is marked as sending and the only pending
    messages are the ones carrying that send's identifier, at most one. *)
Definition pendingInv (s : State) : Prop :=
  match sendCalls s with
  | [] => Forall (fun m => isPending m = false) (messages s)
  | [c] =>
    isSending s = true
    /\ (pendingCount (messages s) <= 1)%nat
    /\ Forall (fun m => isPending m = true -> ChatMessage.id m = tempId c) (messages s)
    /\ startsWith (js "temp_") (tempId c) = true
  | _ => False
  end.

(** The part of the state the session username lives in. *)
Definition sessionView (s : State)
    : jsstring * gmap (list N) (list N) * list (jsstring * jsstring) :=
  (currentUsername s, sessionStorage s, setItemLog s).

(** What the page keeps as the session username is what the session
    storage holds, and the storage was written at most once, with a
    username. *)
Definition sessionInv (s : State) : Prop :=
  (currentUsername s = [] \/ currentUsername s = storedUsername s)
  /\ (setItemLog s = []
      \/ (length (setItemLog s) = 1%nat /\ truthy (storedUsername s) = true)).

(** The session username is [u]: it is stored, and the page keeps either
    nothing yet or [u]. *)
Definition settled (u : jsstring) (s : State) : Prop :=
  truthy u = true /\ storedUsername s = u
  /\ (currentUsername s = [] \/ currentUsername s = u).

(** ** Sample data *)

Definition alice : User := {| uid := js "u1"; displayName := Some (js "Alice") |}.

Definition noRandom : nat -> Random := fun _ => {| scaled := 41; base36 := js "k3x9q0a1z" |}.

Definition room1 : ChatRoom.t :=
  {| ChatRoom.id := js "r1"; ChatRoom.name := js "Study"; ChatRoom.code := js "STUDY1";
     ChatRoom.type := private; ChatRoom.members := [js "u1"];
     ChatRoom.createdBy := js "u1"; ChatRoom.createdAt := js "2024-01-01T00:00:00.000Z";
     ChatRoom.maxMembers := 5; ChatRoom.unreadCount := 0 |}.

Definition serverMsg (mid room text : string) : ChatMessage.t :=
  {| ChatMessage.id := js mid; ChatMessage.userId := js "u2";
     ChatMessage.username := js "Student7"; ChatMessage.content := js text;
     ChatMessage.timestamp := js "2024-01-01T00:00:01.000Z";
     ChatMessage.roomId := js room; ChatMessage.isModerated := false |}.

Definition mounted : State := mount (Some alice) ∅ noRandom.

Definition typedHello : State := run mounted [Typed (js "  hello ")].

Definition sendingHello : State :=
  run (mount (Some alice) ∅ noRandom) [Typed (js "  hello "); Submit 1700 (js "t0")].

Definition shownGlobal : State :=
  run mounted [MessagesResolved 0
                 (Some [serverMsg "m1" "global" "hi"; serverMsg "m2" "global" "yo"])].

(** ** The rest of the page *)

(** [getCurrentRoom] *)
Definition getCurrentRoom (s : State) : option ChatRoom.t :=
  List.find (fun room => bool_decide (ChatRoom.id room = activeRoomId s)) (rooms s).

(** The [disabled] attribute of the submit button. *)
Definition submitDisabled (s : State) : bool :=
  negb (truthy (trim (newMessage s))) || isSending s.

(** The sending flag says whether a send is awaiting its answer, and there
    is never more than one. *)
Definition sendFlagInv (s : State) : Prop :=
  match sendCalls s with
  | [] => isSending s = false
  | [_] => isSending s = true
  | _ => False
  end.

(** The part of the state that loading a message history works on. *)
Definition loadView (s : State) : list jsstring * bool :=
  (messagesCalls s, isLoading s).

(** Once no message history is awaited the page is not loading. *)
Definition loadingInv (s : State) : Prop :=
  messagesCalls s = [] -> isLoading s = false.

Definition inRoom1 : State :=
  run mounted [RoomCreated room1; Typed (js "hi there")].

(** ** The landing page's rotating word ([LandingPage.tsx])

    The three [useState] cells of the animation and the effect that depends
    on them.  One run of the effect together with the time-out it sets is
    one step; the delays themselves (100, 5000 and 50 ms) are left out.
    [None] is the [TypeError] of reading [length] of an undefined word. *)

Definition rotatingWords : list jsstring :=
  [js "Life"; js "Schedule"; js "Health"; js "Coursework"; js "Sleep"].

Record Typewriter := {
  currentWordIndex : nat;
  displayedText : jsstring;
  isDeleting : bool
}.

Definition typewriterStart : Typewriter :=
  {| currentWordIndex := 0; displayedText := []; isDeleting := false |}.

Definition setDisplayedText (w : Typewriter) (text : jsstring) : Typewriter :=
  {| currentWordIndex := currentWordIndex w; displayedText := text;
     isDeleting := isDeleting w |}.

Definition setIsDeleting (w : Typewriter) (b : bool) : Typewriter :=
  {| currentWordIndex := currentWordIndex w; displayedText := displayedText w;
     isDeleting := b |}.

Definition setCurrentWordIndex (w : Typewriter) (f : nat -> nat) : Typewriter :=
  {| currentWordIndex := f (currentWordIndex w); displayedText := displayedText w;
     isDeleting := isDeleting w |}.

Definition typewriterEffect (w : Typewriter) : option Typewriter :=
  let currentWord := rotatingWords !! currentWordIndex w in
  if negb (isDeleting w) then
    word ← currentWord;
    if bool_decide (length (displayedText w) < length word)%nat then
      (* typing out the word *)
      Some (setDisplayedText w (take (length (displayedText w) + 1) word))
    else if bool_decide (length (displayedText w) = length word) then
      (* fully typed *)
      Some (setIsDeleting w true)
    else Some w
  else if bool_decide (0 < length (displayedText w))%nat then
    (* deleting the word *)
    word ← currentWord;
    Some (setDisplayedText w (take (length (displayedText w) - 1) word))
  else
    (* fully deleted, on to the next word *)
    Some (setCurrentWordIndex (setIsDeleting w false)
            (fun prev => (prev + 1) mod length rotatingWords)%nat).

Fixpoint typewriterRun (n : nat) (w : Typewriter) : option Typewriter :=
  match n with
  | O => Some w
  | S n' => typewriterEffect w ≫= typewriterRun n'
  end.

(** The text shown is the beginning of the current word. *)
Definition typewriterInv (w : Typewriter) : Prop :=
  exists (word : jsstring) (k : nat),
    rotatingWords !! currentWordIndex w = Some word
    /\ (k <= length word)%nat
    /\ displayedText w = take k word.

(** ** The room dialogs ([CreateRoomDialog.tsx], [JoinRoomDialog.tsx])

    Each dialog has its own [useState] cells and its awaited calls; the
    page holds the cell that shows it and hands it [handleRoomCreated] or
    [handleRoomJoined].  The toasts of the dialogs, which may come without a
    variant, are logged apart from the page's. *)

Module CreateRoomDialog.
Record t := mk {
  name : jsstring;
  customCode : jsstring;
  isLoading : bool;
  calls : list (jsstring * option jsstring)   (* api.createChatRoom(name, code) *)
}.
End CreateRoomDialog.

Module JoinRoomDialog.
Record t := mk {
  roomCode : jsstring;
  isLoading : bool;
  calls : list jsstring                       (* api.joinChatRoom(code) *)
}.
End JoinRoomDialog.

Record DialogToast := {
  toastTitle : jsstring;
  toastDescription : jsstring;
  toastVariant : option jsstring
}.

Record Chat := {
  page : State;
  showCreateDialog : bool;
  showJoinDialog : bool;
  createDialog : CreateRoomDialog.t;
  joinDialog : JoinRoomDialog.t;
  dialogToasts : list DialogToast
}.

Definition withPage (c : Chat) (f : State -> State) : Chat :=
  {| page := f (page c); showCreateDialog := showCreateDialog c;
     showJoinDialog := showJoinDialog c; createDialog := createDialog c;
     joinDialog := joinDialog c; dialogToasts := dialogToasts c |}.

Definition setShowCreateDialog (c : Chat) (b : bool) : Chat :=
  {| page := page c; showCreateDialog := b;
     showJoinDialog := showJoinDialog c; createDialog := createDialog c;
     joinDialog := joinDialog c; dialogToasts := dialogToasts c |}.

Definition setShowJoinDialog (c : Chat) (b : bool) : Chat :=
  {| page := page c; showCreateDialog := showCreateDialog c;
     showJoinDialog := b; createDialog := createDialog c;
     joinDialog := joinDialog c; dialogToasts := dialogToasts c |}.

Definition withCreateDialog (c : Chat)
    (f : CreateRoomDialog.t -> CreateRoomDialog.t) : Chat :=
  {| page := page c; showCreateDialog := showCreateDialog c;
     showJoinDialog := showJoinDialog c; createDialog := f (createDialog c);
     joinDialog := joinDialog c; dialogToasts := dialogToasts c |}.

Definition withJoinDialog (c : Chat)
    (f : JoinRoomDialog.t -> JoinRoomDialog.t) : Chat :=
  {| page := page c; showCreateDialog := showCreateDialog c;
     showJoinDialog := showJoinDialog c; createDialog := createDialog c;
     joinDialog := f (joinDialog c); dialogToasts := dialogToasts c |}.

Definition dialogToast (c : Chat) (t : DialogToast) : Chat :=
  {| page := page c; showCreateDialog := showCreateDialog c;
     showJoinDialog := showJoinDialog c; createDialog := createDialog c;
     joinDialog := joinDialog c; dialogToasts := dialogToasts c ++ [t] |}.

(** [handleCreateRoom] and [handleJoinRoom] of the page. *)
Definition handleCreateRoom (c : Chat) : Chat := setShowCreateDialog c true.
Definition handleJoinRoom (c : Chat) : Chat := setShowJoinDialog c true.

(** The code unit of the double quote in the success messages. *)
Definition quote : jsstring := [34].

(** *** [CreateRoomDialog] *)

Definition createSetName (v : jsstring) (d : CreateRoomDialog.t) : CreateRoomDialog.t :=
  {| CreateRoomDialog.name := v;
     CreateRoomDialog.customCode := CreateRoomDialog.customCode d;
     CreateRoomDialog.isLoading := CreateRoomDialog.isLoading d;
     CreateRoomDialog.calls := CreateRoomDialog.calls d |}.

Definition createSetCustomCode (v : jsstring) (d : CreateRoomDialog.t)
    : CreateRoomDialog.t :=
  {| CreateRoomDialog.name := CreateRoomDialog.name d;
     CreateRoomDialog.customCode := v;
     CreateRoomDialog.isLoading := CreateRoomDialog.isLoading d;
     CreateRoomDialog.calls := CreateRoomDialog.calls d |}.

Definition createSetIsLoading (b : bool) (d : CreateRoomDialog.t) : CreateRoomDialog.t :=
  {| CreateRoomDialog.name := CreateRoomDialog.name d;
     CreateRoomDialog.customCode := CreateRoomDialog.customCode d;
     CreateRoomDialog.isLoading := b;
     CreateRoomDialog.calls := CreateRoomDialog.calls d |}.

Definition createWithCalls (l : list (jsstring * option jsstring))
    (d : CreateRoomDialog.t) : CreateRoomDialog.t :=
  {| CreateRoomDialog.name := CreateRoomDialog.name d;
     CreateRoomDialog.customCode := CreateRoomDialog.customCode d;
     CreateRoomDialog.isLoading := CreateRoomDialog.isLoading d;
     CreateRoomDialog.calls := l |}.

(** [handleSubmit] up to its [await]. *)
Definition createHandleSubmit (c : Chat) : Chat :=
  let d := createDialog c in
  if negb (truthy (trim (CreateRoomDialog.name d))) then
    dialogToast c {| toastTitle := js "Error";
                     toastDescription := js "Room name is required";
                     toastVariant := Some (js "destructive") |}
  else
    let c1 := withCreateDialog c (createSetIsLoading true) in
    let code := trim (CreateRoomDialog.customCode d) in
    withCreateDialog c1
      (fun d1 => createWithCalls
         (CreateRoomDialog.calls d1 ++
            [(trim (CreateRoomDialog.name d), if truthy code then Some code else None)])
         d1).

(** After [api.createChatRoom] resolved with [response.room]. *)
Definition createHandleSubmit_then (response_room : ChatRoom.t) (c : Chat) : Chat :=
  let c1 := withPage c (handleRoomCreated response_room) in
  let c2 := setShowCreateDialog c1 false in
  let c3 := withCreateDialog c2 (createSetName []) in
  let c4 := withCreateDialog c3 (createSetCustomCode []) in
  let c5 := dialogToast c4
              {| toastTitle := js "Success";
                 toastDescription :=
                   js "Room " ++ quote ++ ChatRoom.name response_room ++ quote
                   ++ js " created successfully!";
                 toastVariant := None |} in
  withCreateDialog c5 (createSetIsLoading false).

(** After it rejected with an error whose [message] is [error_message]. *)
Definition createHandleSubmit_catch (error_message : option jsstring) (c : Chat) : Chat :=
  let c1 := dialogToast c
              {| toastTitle := js "Error";
                 toastDescription :=
                   orElse (default [] error_message) (js "Failed to create room");
                 toastVariant := Some (js "destructive") |} in
  withCreateDialog c1 (createSetIsLoading false).

Definition createHandleOpenChange (newOpen : bool) (c : Chat) : Chat :=
  if negb (CreateRoomDialog.isLoading (createDialog c)) then
    let c1 := setShowCreateDialog c newOpen in
    if negb newOpen then
      withCreateDialog (withCreateDialog c1 (createSetName [])) (createSetCustomCode [])
    else c1
  else c.

(** *** [JoinRoomDialog]; [toUpperCase] is [String.prototype.toUpperCase]. *)

Definition joinSetRoomCode (v : jsstring) (d : JoinRoomDialog.t) : JoinRoomDialog.t :=
  {| JoinRoomDialog.roomCode := v;
     JoinRoomDialog.isLoading := JoinRoomDialog.isLoading d;
     JoinRoomDialog.calls := JoinRoomDialog.calls d |}.

Definition joinSetIsLoading (b : bool) (d : JoinRoomDialog.t) : JoinRoomDialog.t :=
  {| JoinRoomDialog.roomCode := JoinRoomDialog.roomCode d;
     JoinRoomDialog.isLoading := b;
     JoinRoomDialog.calls := JoinRoomDialog.calls d |}.

Definition joinWithCalls (l : list jsstring) (d : JoinRoomDialog.t) : JoinRoomDialog.t :=
  {| JoinRoomDialog.roomCode := JoinRoomDialog.roomCode d;
     JoinRoomDialog.isLoading := JoinRoomDialog.isLoading d;
     JoinRoomDialog.calls := l |}.

Definition joinHandleSubmit (toUpperCase : jsstring -> jsstring) (c : Chat) : Chat :=
  let d := joinDialog c in
  if negb (truthy (trim (JoinRoomDialog.roomCode d))) then
    dialogToast c {| toastTitle := js "Error";
                     toastDescription := js "Room code is required";
                     toastVariant := Some (js "destructive") |}
  else
    let c1 := withJoinDialog c (joinSetIsLoading true) in
    withJoinDialog c1
      (fun d1 => joinWithCalls
         (JoinRoomDialog.calls d1 ++ [toUpperCase (trim (JoinRoomDialog.roomCode d))])
         d1).

Definition joinHandleSubmit_then (response_room : ChatRoom.t) (c : Chat) : Chat :=
  let c1 := withPage c (handleRoomJoined response_room) in
  let c2 := setShowJoinDialog c1 false in
  let c3 := withJoinDialog c2 (joinSetRoomCode []) in
  let c4 := dialogToast c3
              {| toastTitle := js "Success";
                 toastDescription :=
                   js "Joined room " ++ quote ++ ChatRoom.name response_room ++ quote
                   ++ js " successfully!";
                 toastVariant := None |} in
  withJoinDialog c4 (joinSetIsLoading false).

Definition joinHandleSubmit_catch (error_message : option jsstring) (c : Chat) : Chat :=
  let c1 := dialogToast c
              {| toastTitle := js "Error";
                 toastDescription :=
                   orElse (default [] error_message) (js "Failed to join room");
                 toastVariant := Some (js "destructive") |} in
  withJoinDialog c1 (joinSetIsLoading false).

Definition joinHandleOpenChange (newOpen : bool) (c : Chat) : Chat :=
  if negb (JoinRoomDialog.isLoading (joinDialog c)) then
    let c1 := setShowJoinDialog c newOpen in
    if negb newOpen then withJoinDialog c1 (joinSetRoomCode []) else c1
  else c.

(** *** Events of the dialogs

    A dialog takes input and submits only while it is shown; the submit
    button of [CreateRoomDialog] is disabled while loading, the one of
    [JoinRoomDialog] also while the trimmed code is empty.  The inputs take
    at most 50 and 6 code units; the code inputs are upper-cased as typed. *)

Inductive DialogEvent :=
  | OpenCreate
  | OpenJoin
  | CreateNameTyped (value : jsstring)
  | CreateCodeTyped (value : jsstring)
  | CreateSubmit
  | CreateOpenChange (newOpen : bool)
  | CreateResolved (response_room : ChatRoom.t)
  | CreateRejected (error_message : option jsstring)
  | JoinCodeTyped (value : jsstring)
  | JoinSubmit
  | JoinOpenChange (newOpen : bool)
  | JoinResolved (response_room : ChatRoom.t)
  | JoinRejected (error_message : option jsstring)
  | PageEvent (e : Event).

Definition dialogStep (toUpperCase : jsstring -> jsstring) (c : Chat)
    (e : DialogEvent) : Chat :=
  match e with
  | OpenCreate => handleCreateRoom c
  | OpenJoin => handleJoinRoom c
  | CreateNameTyped value =>
    if showCreateDialog c && bool_decide (length value <= 50)%nat
    then withCreateDialog c (createSetName value) else c
  | CreateCodeTyped value =>
    if showCreateDialog c && bool_decide (length value <= 6)%nat
    then withCreateDialog c (createSetCustomCode (toUpperCase value)) else c
  | CreateSubmit =>
    if showCreateDialog c && negb (CreateRoomDialog.isLoading (createDialog c))
    then createHandleSubmit c else c
  | CreateOpenChange newOpen =>
    if showCreateDialog c then createHandleOpenChange newOpen c else c
  | CreateResolved response_room =>
    match CreateRoomDialog.calls (createDialog c) with
    | _ :: rest =>
      createHandleSubmit_then response_room (withCreateDialog c (createWithCalls rest))
    | [] => c
    end
  | CreateRejected error_message =>
    match CreateRoomDialog.calls (createDialog c) with
    | _ :: rest =>
      createHandleSubmit_catch error_message (withCreateDialog c (createWithCalls rest))
    | [] => c
    end
  | JoinCodeTyped value =>
    if showJoinDialog c && bool_decide (length value <= 6)%nat
    then withJoinDialog c (joinSetRoomCode (toUpperCase value)) else c
  | JoinSubmit =>
    if showJoinDialog c
       && negb (JoinRoomDialog.isLoading (joinDialog c)
                || negb (truthy (trim (JoinRoomDialog.roomCode (joinDialog c)))))
    then joinHandleSubmit toUpperCase c else c
  | JoinOpenChange newOpen =>
    if showJoinDialog c then joinHandleOpenChange newOpen c else c
  | JoinResolved response_room =>
    match JoinRoomDialog.calls (joinDialog c) with
    | _ :: rest =>
      joinHandleSubmit_then response_room (withJoinDialog c (joinWithCalls rest))
    | [] => c
    end
  | JoinRejected error_message =>
    match JoinRoomDialog.calls (joinDialog c) with
    | _ :: rest =>
      joinHandleSubmit_catch error_message (withJoinDialog c (joinWithCalls rest))
    | [] => c
    end
  | PageEvent e => withPage c (fun s => step s e)
  end.

Definition dialogRun (toUpperCase : jsstring -> jsstring) (c : Chat)
    (es : list DialogEvent) : Chat :=
  foldl (dialogStep toUpperCase) c es.

(** The page with both dialogs closed and empty. *)
Definition chatStart (s : State) : Chat :=
  {| page := s; showCreateDialog := false; showJoinDialog := false;
     createDialog := {| CreateRoomDialog.name := []; CreateRoomDialog.customCode := [];
                        CreateRoomDialog.isLoading := false;
                        CreateRoomDialog.calls := [] |};
     joinDialog := {| JoinRoomDialog.roomCode := []; JoinRoomDialog.isLoading := false;
                      JoinRoomDialog.calls := [] |};
     dialogToasts := [] |}.

(** While a dialog awaits its answer it is shown and marked as loading, and
    it awaits one answer at most. *)
Definition dialogInv (c : Chat) : Prop :=
  match CreateRoomDialog.calls (createDialog c) with
  | [] => CreateRoomDialog.isLoading (createDialog c) = false
  | [_] => CreateRoomDialog.isLoading (createDialog c) = true
           /\ showCreateDialog c = true
  | _ => False
  end
  /\ match JoinRoomDialog.calls (joinDialog c) with
     | [] => JoinRoomDialog.isLoading (joinDialog c) = false
     | [_] => JoinRoomDialog.isLoading (joinDialog c) = true
              /\ showJoinDialog c = true
     | _ => False
     end.

(** Upper case of the ASCII letters, for the examples. *)
Definition asciiUpper (s : jsstring) : jsstring :=
  (fun c => if (97 <=? c) && (c <=? 122) then c - 32 else c) <$> s.

(** A decimal digit, as a code unit. *)
Definition isDigit (c : N) : bool := (48 <=? c) && (c <=? 57).

(** Events that are not room events: typing, sending, answers of the
    service, renders. *)
Definition notRoomEvent (e : Event) : Prop :=
  match e with
  | RoomSelect _ | RoomsResolved _ _ | RoomCreated _ | RoomJoined _
  | RoomUpdated _ | RoomLeft _ | RoomDeleted _ => False
  | _ => True
  end.

(** * Properties *)

(** ** Counting rooms by identifier *)

Section RoomCounting.
Implicit Types (l : list ChatRoom.t) (rid : jsstring).

Lemma roomIdCount_nil rid : roomIdCount rid [] = 0%nat.
Proof. reflexivity. Qed.

Lemma roomIdCount_app rid l1 l2 :
  roomIdCount rid (l1 ++ l2) = (roomIdCount rid l1 + roomIdCount rid l2)%nat.
Proof. unfold roomIdCount. by rewrite filter_app, length_app. Qed.

Lemma roomIdCount_single rid room :
  roomIdCount rid [room] = if decide (ChatRoom.id room = rid) then 1%nat else 0%nat.
Proof.
  unfold roomIdCount. rewrite filter_cons.
  by destruct (decide (ChatRoom.id room = rid)).
Qed.

Lemma roomIdCount_absent rid l :
  rid ∉ ChatRoom.id <$> l -> roomIdCount rid l = 0%nat.
Proof.
  induction l as [|room l IH]; [done|].
  rewrite fmap_cons, not_elem_of_cons. intros [Hne Hnin].
  change (room :: l) with ([room] ++ l).
  rewrite roomIdCount_app, roomIdCount_single, (IH Hnin).
  by destruct (decide (ChatRoom.id room = rid)); [congruence|].
Qed.

Lemma find_None_absent rid l :
  List.find (fun room => bool_decide (ChatRoom.id room = rid)) l = None ->
  rid ∉ ChatRoom.id <$> l.
Proof.
  induction l as [|room l IH]; simpl.
  - intros _. apply not_elem_of_nil.
  - case_bool_decide as Hid; [done|].
    intros Hfind. rewrite not_elem_of_cons. split; [congruence | by apply IH].
Qed.

Lemma find_Some_unique rid l room :
  List.find (fun room => bool_decide (ChatRoom.id room = rid)) l = Some room ->
  NoDup (ChatRoom.id <$> l) ->
  roomIdCount rid l = 1%nat.
Proof.
  induction l as [|a l IH]; simpl; [done|].
  rewrite NoDup_cons. intros Hfind [Hnin Hnd].
  change (a :: l) with ([a] ++ l).
  rewrite roomIdCount_app, roomIdCount_single.
  case_bool_decide as Hid.
  - subst rid. rewrite decide_True by done.
    by rewrite roomIdCount_absent.
  - rewrite decide_False by done. by apply IH.
Qed.
End RoomCounting.

(** ** Loading the rooms *)

(** C6: for a room list whose identifiers are unique, a successful
    [loadChatRooms] leaves exactly one room with id "global" in the local
    list; when the answer has none, it is the room synthesized with name
    "Global Chat", code "GLOBAL", no members, 1000 members at most and
    owner "system", appended after the rooms of the answer; loading the same
    answer again yields one global room again and the same rooms in the
    same order. *)
Theorem loadChatRooms_one_global
    (response_rooms : option (list ChatRoom.t)) (now now' : jsstring) (s : State) :
  NoDup (ChatRoom.id <$> default [] response_rooms) ->
  let s1 := loadChatRooms_then response_rooms now s in
  let s2 := loadChatRooms_then response_rooms now' s1 in
  roomIdCount (js "global") (rooms s1) = 1%nat
  /\ (js "global" ∉ ChatRoom.id <$> default [] response_rooms ->
      rooms s1 = default [] response_rooms ++
        [ {| ChatRoom.id := js "global"; ChatRoom.name := js "Global Chat";
             ChatRoom.code := js "GLOBAL"; ChatRoom.type := global;
             ChatRoom.members := []; ChatRoom.createdBy := js "system";
             ChatRoom.createdAt := now; ChatRoom.maxMembers := 1000;
             ChatRoom.unreadCount := 0 |} ])
  /\ roomIdCount (js "global") (rooms s2) = 1%nat
  /\ ChatRoom.id <$> rooms s2 = ChatRoom.id <$> rooms s1.
Proof.
  intros Hnd s1 s2. subst s1 s2. unfold loadChatRooms_then.
  destruct response_rooms as [l|]; simpl in *.
  - destruct (List.find _ l) as [g|] eqn:Hfind; simpl.
    + repeat split; try by eapply find_Some_unique.
      intros Habs. apply roomIdCount_absent in Habs.
      erewrite find_Some_unique in Habs; done.
    + pose proof (find_None_absent _ _ Hfind) as Habs.
      rewrite !roomIdCount_app, (roomIdCount_absent _ _ Habs).
      rewrite !fmap_app. done.
  - done.
Qed.

Lemma loadChatRooms_one_global_witness :
  let s1 := loadChatRooms_then (Some [room1]) (js "t0") mounted in
  roomIdCount (js "global") (rooms s1) = 1%nat
  /\ roomIdCount (js "global")
       (rooms (loadChatRooms_then (Some [room1]) (js "t1") s1)) = 1%nat.
Proof.
  assert (Hnd : NoDup (ChatRoom.id <$> default [] (Some [room1]))).
  { apply NoDup_singleton. }
  destruct (loadChatRooms_one_global (Some [room1]) (js "t0") (js "t1") mounted Hnd)
    as (H1 & _ & H2 & _).
  split; [exact H1 | exact H2].
Defined.

(** C7: when the room-list fetch rejects, the local room list is exactly
    what it was, nothing else of the page's own state changes, and an error
    toast "Failed to load chat rooms" is raised. *)
Theorem loadChatRooms_failure_atomic (s : State) :
  roomsCalls s <> 0%nat ->
  let s' := step s RoomsRejected in
  rooms s' = rooms s
  /\ activeRoomId s' = activeRoomId s
  /\ messages s' = messages s
  /\ newMessage s' = newMessage s
  /\ toasts s' = toasts s ++ [ {| title := js "Error";
                                  description := js "Failed to load chat rooms";
                                  variant := js "destructive" |} ].
Proof.
  intros Hcalls. simpl. destruct (roomsCalls s) as [|n]; [done|].
  by repeat split.
Qed.

Lemma loadChatRooms_failure_atomic_witness :
  rooms (step mounted RoomsRejected) = rooms mounted
  /\ length (toasts (step mounted RoomsRejected)) = 1%nat.
Proof.
  assert (Hcalls : roomsCalls mounted <> 0%nat) by (vm_compute; discriminate).
  destruct (loadChatRooms_failure_atomic mounted Hcalls) as (Hr & _ & _ & _ & Ht).
  split; [exact Hr | by rewrite Ht].
Defined.

(** ** Room events *)

Lemma setActiveRoomId_active r s : activeRoomId (setActiveRoomId r s) = r.
Proof.
  unfold setActiveRoomId. destruct (decide (r = activeRoomId s)); [done|].
  by destruct (truthy r).
Qed.

Lemma setActiveRoomId_rooms r s : rooms (setActiveRoomId r s) = rooms s.
Proof.
  unfold setActiveRoomId. destruct (decide (r = activeRoomId s)); [done|].
  by destruct (truthy r).
Qed.

(** C2, as the page behaves: a [created] or [joined] event appends the room
    at the end of the room list whether or not its id is already there, and
    makes it the active room; each delivery adds one entry with that id. *)
Theorem room_event_appends (room : ChatRoom.t) (s : State) :
  (rooms (handleRoomCreated room s) = rooms s ++ [room]
   /\ activeRoomId (handleRoomCreated room s) = ChatRoom.id room
   /\ roomIdCount (ChatRoom.id room) (rooms (handleRoomCreated room s))
      = S (roomIdCount (ChatRoom.id room) (rooms s)))
  /\ (rooms (handleRoomJoined room s) = rooms s ++ [room]
      /\ activeRoomId (handleRoomJoined room s) = ChatRoom.id room
      /\ roomIdCount (ChatRoom.id room) (rooms (handleRoomJoined room s))
         = S (roomIdCount (ChatRoom.id room) (rooms s))).
Proof.
  unfold handleRoomCreated, handleRoomJoined.
  rewrite !setActiveRoomId_active, !setActiveRoomId_rooms. simpl rooms.
  rewrite roomIdCount_app, roomIdCount_single, decide_True by done.
  repeat split; lia.
Qed.

(** C2 fails as stated: delivering the same [created] (or [joined]) event
    a second time leaves two entries with the room's id. *)
Lemma room_event_repeated_duplicates :
  let s1 := step mounted (RoomCreated room1) in
  let s2 := step s1 (RoomCreated room1) in
  let s2' := step s1 (RoomJoined room1) in
  roomIdCount (js "r1") (rooms s1) = 1%nat
  /\ roomIdCount (js "r1") (rooms s2) = 2%nat
  /\ roomIdCount (js "r1") (rooms s2') = 2%nat.
Proof. vm_compute. done. Qed.

(** ** The session username *)

Lemma getSessionUsername_cases snap s :
  (truthy (currentUsername snap) = true
   /\ getSessionUsername snap s = (currentUsername snap, s))
  \/ (currentUsername snap = [] /\ truthy (storedUsername s) = true
      /\ getSessionUsername snap s
         = (storedUsername s, setCurrentUsername s (storedUsername s)))
  \/ (currentUsername snap = [] /\ storedUsername s = []
      /\ let newUsername :=
           js "Student" ++ numberToString (scaled (entropy s (drawn s)) + 1) in
         getSessionUsername snap s
         = (newUsername,
            setCurrentUsername
              (setItem (Math_random s).2 (js "chatUsername") newUsername)
              newUsername)).
Proof.
  unfold getSessionUsername, storedUsername.
  destruct (currentUsername snap) as [|c cs]; [right | by left].
  destruct (default [] (sessionStorage s !! js "chatUsername")) as [|d ds]; simpl.
  - right. by repeat split.
  - left. by repeat split.
Qed.

Lemma sameChat_refl s : sameChat s s.
Proof. by repeat split. Qed.

Lemma sameChat_trans s1 s2 s3 : sameChat s1 s2 -> sameChat s2 s3 -> sameChat s1 s3.
Proof.
  unfold sameChat. intros H12 H23. destruct_and!.
  repeat split; congruence.
Qed.

(** A call does not touch the chat state proper. *)
Lemma getSessionUsername_frame snap s :
  sameChat s (getSessionUsername snap s).2.
Proof.
  destruct (getSessionUsername_cases snap s)
    as [[_ ->] | [(_ & _ & ->) | (_ & _ & ->)]]; by repeat split.
Qed.

(** Within one closure, a second call returns what the first returned and
    changes nothing more. *)
Lemma getSessionUsername_again snap s :
  getSessionUsername snap (getSessionUsername snap s).2
  = getSessionUsername snap s.
Proof.
  destruct (getSessionUsername_cases snap s)
    as [[Hcur E] | [(Hcur & Hst & E) | (Hcur & Hst & E)]].
  - rewrite E. simpl. exact E.
  - rewrite E. cbn [snd].
    destruct (getSessionUsername_cases snap (setCurrentUsername s (storedUsername s)))
      as [[Hcur' _] | [(_ & _ & E') | (_ & Hst' & _)]].
    + by rewrite Hcur in Hcur'.
    + rewrite E'. reflexivity.
    + unfold storedUsername in *. simpl in Hst'. rewrite Hst' in Hst. done.
  - cbv zeta in E. rewrite E. cbn [snd].
    set (newUsername := js "Student" ++ _) in *.
    set (s2 := setCurrentUsername _ _).
    assert (Hs2 : storedUsername s2 = newUsername).
    { unfold storedUsername, s2. simpl. by rewrite lookup_insert_eq. }
    destruct (getSessionUsername_cases snap s2)
      as [[Hcur' _] | [(_ & _ & E') | (_ & Hst' & _)]].
    + by rewrite Hcur in Hcur'.
    + rewrite E', Hs2. reflexivity.
    + rewrite Hs2 in Hst'. discriminate Hst'.
Qed.

(** ** Own messages *)

Lemma renderMessages_settled snap user resolved ms s :
  currentUser snap = Some user ->
  (activeRoomId snap = js "global" -> getSessionUsername snap s = (resolved, s)) ->
  renderMessages snap ms s
  = ((fun m => (ownFlag snap user resolved m, isPending m)) <$> ms, s).
Proof.
  intros Huser Hfix. induction ms as [|m ms IH]; [done|].
  simpl. unfold isOwnMessage, ownFlag in *. rewrite Huser.
  destruct (decide (activeRoomId snap = js "global")) as [Hg|Hg].
  - rewrite (Hfix Hg), IH. done.
  - rewrite IH. done.
Qed.

Lemma renderMessages_flags snap user ms s :
  currentUser snap = Some user ->
  (renderMessages snap ms s).1
  = (fun m => (ownFlag snap user (getSessionUsername snap s).1 m, isPending m)) <$> ms.
Proof.
  intros Huser. destruct ms as [|m ms]; [done|].
  simpl. unfold isOwnMessage. rewrite Huser.
  destruct (decide (activeRoomId snap = js "global")) as [Hg|Hg].
  - pose proof (getSessionUsername_again snap s) as Hagain.
    destruct (getSessionUsername snap s) as [n s1] eqn:E. simpl in Hagain.
    rewrite (renderMessages_settled snap user n ms s1 Huser (fun _ => Hagain)).
    simpl. unfold ownFlag. by rewrite decide_True.
  - rewrite (renderMessages_settled snap user (getSessionUsername snap s).1 ms s Huser)
      by done.
    simpl. unfold ownFlag. by rewrite decide_False.
Qed.

(** C9: for every message the page displays, in the global room (active
    room id "global") the message is shown as the caller's own exactly when
    its username is the session username the render resolves; in any other
    room, exactly when its userId is the caller's uid. *)
Theorem own_message_attribution (s : State) (user : User) (i : nat)
    (m : ChatMessage.t) :
  currentUser s = Some user ->
  isLoading s = false ->
  messages s !! i = Some m ->
  exists own : bool,
    (render s).1 !! i = Some (own, isPending m)
    /\ (activeRoomId s = js "global" ->
        (own = true <-> ChatMessage.username m = (getSessionUsername s s).1))
    /\ (activeRoomId s <> js "global" ->
        (own = true <-> ChatMessage.userId m = uid user)).
Proof.
  intros Huser Hload Hm.
  exists (ownFlag s user (getSessionUsername s s).1 m).
  unfold render. rewrite Hload, (renderMessages_flags s user _ s Huser).
  rewrite list_lookup_fmap, Hm. split; [done|].
  unfold ownFlag. split; intros Hg.
  - rewrite decide_True by done. apply bool_decide_eq_true.
  - rewrite decide_False by done. apply bool_decide_eq_true.
Qed.

Lemma own_message_attribution_witness :
  exists own : bool,
    (render shownGlobal).1 !! 1%nat
      = Some (own, isPending (serverMsg "m2" "global" "yo"))
    /\ (activeRoomId shownGlobal = js "global" ->
        (own = true <->
         ChatMessage.username (serverMsg "m2" "global" "yo")
           = (getSessionUsername shownGlobal shownGlobal).1))
    /\ (activeRoomId shownGlobal <> js "global" ->
        (own = true <->
         ChatMessage.userId (serverMsg "m2" "global" "yo") = uid alice)).
Proof.
  apply (own_message_attribution shownGlobal alice 1 (serverMsg "m2" "global" "yo"));
    reflexivity.
Defined.

(** ** Sending *)

Lemma startsWith_app p s : startsWith p (p ++ s) = true.
Proof. induction p as [|a p IH]; simpl; [done|]. by rewrite decide_True. Qed.

Lemma getSessionUsername_setMessages snap s f :
  getSessionUsername snap (setMessages s f)
  = ((getSessionUsername snap s).1, setMessages (getSessionUsername snap s).2 f).
Proof.
  unfold getSessionUsername. cbn [sessionStorage setMessages].
  destruct (truthy (currentUsername snap)); [reflexivity|].
  destruct (truthy (default [] (sessionStorage s !! js "chatUsername")));
    reflexivity.
Qed.

Lemma getSessionUsername_truthy snap s :
  truthy (getSessionUsername snap s).1 = true.
Proof.
  destruct (getSessionUsername_cases snap s)
    as [[Hcur E] | [(Hcur & Hst & E) | (Hcur & Hst & E)]]; by rewrite E.
Qed.

Lemma getSessionUsername_current snap s :
  currentUsername s = currentUsername snap ->
  currentUsername (getSessionUsername snap s).2 = (getSessionUsername snap s).1.
Proof.
  intros Hsame.
  destruct (getSessionUsername_cases snap s)
    as [[Hcur E] | [(Hcur & Hst & E) | (Hcur & Hst & E)]]; by rewrite E.
Qed.

Lemma getSessionUsername_cached snap s :
  truthy (currentUsername snap) = true ->
  getSessionUsername snap s = (currentUsername snap, s).
Proof. intros Hcur. unfold getSessionUsername. by rewrite Hcur. Qed.

(** What an accepted [sendMessage] has done when it reaches its [await]. *)
Lemma sendMessage_accepted nowMs nowIso s user :
  currentUser s = Some user ->
  truthy (trim (newMessage s)) = true ->
  isSending s = false ->
  let s' := sendMessage nowMs nowIso s in
  exists (name : jsstring) (anonymous : option jsstring),
    messages s' = messages s ++
      [ {| ChatMessage.id := tempIdOf nowMs s;
           ChatMessage.userId := uid user;
           ChatMessage.username := name;
           ChatMessage.content := trim (newMessage s);
           ChatMessage.timestamp := nowIso;
           ChatMessage.roomId := activeRoomId s;
           ChatMessage.isModerated := false |} ]
    /\ sendCalls s' = sendCalls s ++
         [ {| tempId := tempIdOf nowMs s; messageText := trim (newMessage s);
              sentRoomId := activeRoomId s; sentUsername := anonymous |} ]
    /\ newMessage s' = [] /\ isSending s' = true
    /\ activeRoomId s' = activeRoomId s /\ rooms s' = rooms s
    /\ messagesCalls s' = messagesCalls s /\ currentUser s' = currentUser s
    /\ (activeRoomId s = js "global" ->
        name = currentUsername s' /\ anonymous = Some name
        /\ (getSessionUsername s' s').1 = name)
    /\ (activeRoomId s <> js "global" ->
        name = chatDisplayName s /\ anonymous = None).
Proof.
  intros Huser Htrim Hsend s'. subst s'. unfold sendMessage, tempIdOf.
  rewrite Huser, Htrim, Hsend. cbn [negb orb Math_random].
  set (s3 := Build_State _ _ _ _ _ _ _ _ _ _ _ _ _ _ _ _ _ _).
  destruct (decide (activeRoomId s = js "global")) as [Hg|Hg].
  - pose proof (getSessionUsername_again s s3) as Hagain.
    pose proof (getSessionUsername_frame s s3) as Hframe.
    pose proof (getSessionUsername_truthy s s3) as Htruthy.
    pose proof (getSessionUsername_current s s3 eq_refl) as Hcurrent.
    destruct (getSessionUsername s s3) as [name s4] eqn:E1. cbn [fst snd] in *.
    rewrite getSessionUsername_setMessages, Hagain. cbn [fst snd].
    exists name, (Some name).
    destruct Hframe as (Hr & Ha & Hm & Hn & _ & Hs & _ & Hu & _ & _ & _ & Hmc & Hsc).
    rewrite getSessionUsername_cached
      by (cbn [currentUsername withSendCalls setMessages]; by rewrite Hcurrent).
    cbn [messages sendCalls newMessage isSending activeRoomId rooms messagesCalls
         currentUser withSendCalls setMessages currentUsername fst].
    rewrite Hr, Ha, Hm, Hn, Hs, Hu, Hmc, Hsc, Hcurrent.
    by repeat split.
  - exists (chatDisplayName s), None. by repeat split.
Qed.

(** C10: a submit accepted while the global room is active appends a
    pending message whose userId is the caller's own uid; only its username
    is the anonymous session username (the one the page keeps as
    [currentUsername] and any later call resolves), which is also what is
    passed to the service. *)
Theorem pending_message_identity (nowMs : N) (nowIso : jsstring) (s : State)
    (user : User) :
  currentUser s = Some user ->
  truthy (trim (newMessage s)) = true ->
  isSending s = false ->
  activeRoomId s = js "global" ->
  let s' := sendMessage nowMs nowIso s in
  exists (pending : ChatMessage.t) (c : SendCall),
    messages s' = messages s ++ [pending]
    /\ sendCalls s' = sendCalls s ++ [c]
    /\ isPending pending = true
    /\ ChatMessage.userId pending = uid user
    /\ ChatMessage.username pending = currentUsername s'
    /\ (getSessionUsername s' s').1 = ChatMessage.username pending
    /\ sentUsername c = Some (ChatMessage.username pending)
    /\ ChatMessage.roomId pending = js "global".
Proof.
  intros Huser Htrim Hsend Hg s'.
  destruct (sendMessage_accepted nowMs nowIso s user Huser Htrim Hsend)
    as (name & anonymous & Hm & Hc & _ & _ & _ & _ & _ & _ & Hglobal & _).
  destruct (Hglobal Hg) as (Hname & Hanon & Hres).
  eexists _, _. split; [exact Hm|]. split; [exact Hc|].
  cbn [ChatMessage.userId ChatMessage.username ChatMessage.roomId sentUsername].
  split; [apply startsWith_app|]. by repeat split.
Qed.

Lemma pending_message_identity_witness :
  exists (pending : ChatMessage.t) (c : SendCall),
    messages (sendMessage 1700 (js "t0") typedHello)
      = messages typedHello ++ [pending]
    /\ sendCalls (sendMessage 1700 (js "t0") typedHello)
       = sendCalls typedHello ++ [c]
    /\ isPending pending = true
    /\ ChatMessage.userId pending = uid alice
    /\ ChatMessage.username pending
       = currentUsername (sendMessage 1700 (js "t0") typedHello)
    /\ (getSessionUsername (sendMessage 1700 (js "t0") typedHello)
          (sendMessage 1700 (js "t0") typedHello)).1
       = ChatMessage.username pending
    /\ sentUsername c = Some (ChatMessage.username pending)
    /\ ChatMessage.roomId pending = js "global".
Proof.
  apply (pending_message_identity 1700 (js "t0") typedHello alice); reflexivity.
Defined.

(** C3: an accepted submit suspends a send that remembers the trimmed
    input and the identifier of the pending message it appended; whenever
    that send then fails, whatever happened meanwhile, the resulting state
    has no message with that identifier, the compose field holds the trimmed
    input again, the sending flag is cleared and an error toast is raised. *)
Theorem send_failure_rolls_back (nowMs : N) (nowIso : jsstring) (s : State) :
  accepted s ->
  let s1 := sendMessage nowMs nowIso s in
  exists (pending : ChatMessage.t) (c : SendCall),
    messages s1 = messages s ++ [pending]
    /\ sendCalls s1 = sendCalls s ++ [c]
    /\ ChatMessage.id pending = tempId c
    /\ messageText c = trim (newMessage s)
    /\ forall (s2 : State) (i : nat),
         sendCalls s2 !! i = Some c ->
         let s3 := step s2 (SendRejected i) in
         (forall m, m ∈ messages s3 -> ChatMessage.id m <> tempId c)
         /\ newMessage s3 = trim (newMessage s)
         /\ isSending s3 = false
         /\ toasts s3 = toasts s2 ++ [ {| title := js "Error";
                                          description := js "Failed to send message";
                                          variant := js "destructive" |} ].
Proof.
  intros ([user Huser] & Htrim & Hsend) s1.
  destruct (sendMessage_accepted nowMs nowIso s user Huser Htrim Hsend)
    as (name & anonymous & Hm & Hc & _).
  eexists _, _. split; [exact Hm|]. split; [exact Hc|].
  cbn [ChatMessage.id tempId messageText]. split; [done|]. split; [done|].
  intros s2 i Hcall. simpl. rewrite Hcall.
  cbn [sendMessage_catch messages newMessage isSending toasts setIsSending toast
       setNewMessage setMessages withSendCalls tempId messageText].
  repeat split.
  intros m Hin. apply list_elem_of_filter in Hin as [Hne _]. exact Hne.
Qed.

Lemma send_failure_rolls_back_witness :
  let s1 := sendMessage 1700 (js "t0") typedHello in
  let s3 := step s1 (SendRejected 0) in
  messages s3 = [] /\ newMessage s3 = js "hello" /\ isSending s3 = false.
Proof.
  assert (Hacc : accepted typedHello).
  { split; [by eexists | split; reflexivity]. }
  destruct (send_failure_rolls_back 1700 (js "t0") typedHello Hacc)
    as (pending & c & Hm & Hc & Hid & Htext & Hfail).
  assert (Hcall : sendCalls (sendMessage 1700 (js "t0") typedHello) !! 0%nat = Some c).
  { rewrite Hc. reflexivity. }
  destruct (Hfail _ 0%nat Hcall) as (_ & Hnew & Hflag & _).
  split; [reflexivity|]. split; [exact Hnew | exact Hflag].
Defined.

(** ** What an event leaves alone *)

Lemma renderMessages_frame snap ms s : sameChat s (renderMessages snap ms s).2.
Proof.
  revert s. induction ms as [|m ms IH]; intros s; [apply sameChat_refl|].
  simpl. unfold isOwnMessage.
  destruct (currentUser snap) as [user|].
  - destruct (decide (activeRoomId snap = js "global")).
    + pose proof (getSessionUsername_frame snap s) as Hframe.
      destruct (getSessionUsername snap s) as [n s1].
      pose proof (IH s1) as Hrest.
      destruct (renderMessages snap ms s1) as [rest s2].
      exact (sameChat_trans _ _ _ Hframe Hrest).
    + pose proof (IH s) as Hrest.
      by destruct (renderMessages snap ms s) as [rest s2].
  - pose proof (IH s) as Hrest.
    by destruct (renderMessages snap ms s) as [rest s2].
Qed.

Lemma render_frame s : sameChat s (render s).2.
Proof.
  unfold render. destruct (isLoading s); [apply sameChat_refl|].
  apply renderMessages_frame.
Qed.

Lemma setActiveRoomId_sendView r s : sendView (setActiveRoomId r s) = sendView s.
Proof.
  unfold setActiveRoomId. destruct (decide (r = activeRoomId s)); [done|].
  by destruct (truthy r).
Qed.

Lemma sendMessage_while_sending nowMs nowIso s :
  isSending s = true -> sendMessage nowMs nowIso s = s.
Proof.
  intros Hsend. unfold sendMessage. destruct (currentUser s); [|done].
  by rewrite Hsend, orb_true_r.
Qed.

Lemma step_sendView s e :
  match e with
  | Submit _ _ | SendResolved _ _ | SendRejected _ | MessagesResolved _ _ => True
  | _ => sendView (step s e) = sendView s
  end.
Proof.
  destruct e; try exact I; simpl.
  - by destruct (isSending s || _).
  - apply setActiveRoomId_sendView.
  - by destruct (messagesCalls s !! i).
  - destruct (roomsCalls s); [done|].
    unfold loadChatRooms_then. by destruct (response_rooms ≫= _).
  - by destruct (roomsCalls s).
  - by destruct (profileCalls s).
  - by destruct (profileCalls s).
  - unfold handleRoomCreated. by rewrite setActiveRoomId_sendView.
  - unfold handleRoomJoined. by rewrite setActiveRoomId_sendView.
  - done.
  - unfold handleRoomLeft. destruct (decide (activeRoomId s = roomId)); [|done].
    by rewrite setActiveRoomId_sendView.
  - unfold handleRoomDeleted. destruct (decide (activeRoomId s = roomId)); [|done].
    by rewrite setActiveRoomId_sendView.
  - destruct (render_frame s) as (_ & _ & Hm & _ & _ & Hs & _ & _ & _ & _ & _ & _ & Hc).
    unfold sendView. by rewrite Hm, Hs, Hc.
Qed.

Lemma step_quiet s e :
  isSending s = true -> quiet e -> sendView (step s e) = sendView s.
Proof.
  intros Hsend Hq. pose proof (step_sendView s e) as Hframe.
  destruct e; try done.
  simpl. by rewrite sendMessage_while_sending.
Qed.

Lemma run_quiet s es :
  isSending s = true -> Forall quiet es -> sendView (run s es) = sendView s.
Proof.
  revert s. induction es as [|e es IH]; intros s Hsend Hq; [done|].
  apply Forall_cons in Hq as [He Hes]. simpl.
  pose proof (step_quiet s e Hsend He) as Hstep.
  rewrite IH; [done| |done].
  unfold sendView in Hstep. congruence.
Qed.

(** ** At most one pending message *)

Lemma pendingCount_none l :
  Forall (fun m => isPending m = false) l -> pendingCount l = 0%nat.
Proof.
  unfold pendingCount. induction 1 as [|m l Hm _ IH]; [done|].
  rewrite filter_cons, decide_False; [done|]. by rewrite Hm.
Qed.

Lemma pendingCount_app l1 l2 :
  pendingCount (l1 ++ l2) = (pendingCount l1 + pendingCount l2)%nat.
Proof. unfold pendingCount. by rewrite filter_app, length_app. Qed.

Lemma pendingInv_count s : pendingInv s -> (pendingCount (messages s) <= 1)%nat.
Proof.
  unfold pendingInv. destruct (sendCalls s) as [|c [|c' l]].
  - intros Hnone. rewrite pendingCount_none; [lia | done].
  - by intros (_ & Hcount & _).
  - done.
Qed.

Lemma pendingInv_idle s :
  pendingInv s -> isSending s = false ->
  sendCalls s = [] /\ Forall (fun m => isPending m = false) (messages s).
Proof.
  unfold pendingInv. destruct (sendCalls s) as [|c [|c' l]].
  - done.
  - intros (Hsend & _) Hidle. congruence.
  - done.
Qed.

Lemma pendingInv_sendView s s' :
  sendView s' = sendView s -> pendingInv s -> pendingInv s'.
Proof.
  unfold sendView, pendingInv. intros [= -> -> ->]. done.
Qed.

Lemma pendingInv_mount user storage rand : pendingInv (mount user storage rand).
Proof.
  unfold mount, initialState. cbn [currentUser activeRoomId].
  destruct user; apply Forall_nil_2.
Qed.

Lemma pendingInv_sendMessage nowMs nowIso s :
  pendingInv s -> pendingInv (sendMessage nowMs nowIso s).
Proof.
  intros Hinv.
  destruct (currentUser s) as [user|] eqn:Huser;
    [|by unfold sendMessage; rewrite Huser].
  destruct (truthy (trim (newMessage s))) eqn:Htrim;
    [|by unfold sendMessage; rewrite Huser, Htrim].
  destruct (isSending s) eqn:Hsend; [by rewrite sendMessage_while_sending|].
  destruct (pendingInv_idle s Hinv Hsend) as [Hcalls Hnone].
  destruct (sendMessage_accepted nowMs nowIso s user Huser Htrim Hsend)
    as (name & anonymous & Hm & Hc & _ & Hflag & _).
  unfold pendingInv. rewrite Hc, Hcalls, Hm. cbn [app].
  split; [exact Hflag|]. split.
  - rewrite pendingCount_app, (pendingCount_none _ Hnone).
    unfold pendingCount. rewrite filter_cons. by destruct (decide _).
  - split; [|apply startsWith_app].
    apply Forall_app. split.
    + eapply Forall_impl; [exact Hnone|]. simpl. congruence.
    + by apply Forall_singleton.
Qed.

Lemma pendingInv_step s e : fromServer e -> pendingInv s -> pendingInv (step s e).
Proof.
  intros Hsrv Hinv. pose proof (step_sendView s e) as Hframe.
  destruct e; try (by eapply pendingInv_sendView).
  - (* Submit *) by apply pendingInv_sendMessage.
  - (* SendResolved *)
    simpl. pose proof Hinv as Hinv0. unfold pendingInv in Hinv.
    destruct (sendCalls s) as [|c [|c' l]] eqn:Hcalls; [by destruct i| |done].
    destruct i as [|i]; [|exact Hinv0]. simpl.
    destruct Hinv as (_ & _ & Hown & _).
    unfold pendingInv. cbn [sendCalls messages sendMessage_then setIsSending
      setMessages withSendCalls].
    apply Forall_fmap. eapply Forall_impl; [exact Hown|].
    intros m Hm. simpl in *. destruct (decide (ChatMessage.id m = tempId c)) as [|Hne].
    + exact Hsrv.
    + destruct (isPending m); [by destruct Hne; apply Hm | done].
  - (* SendRejected *)
    simpl. pose proof Hinv as Hinv0. unfold pendingInv in Hinv.
    destruct (sendCalls s) as [|c [|c' l]] eqn:Hcalls; [by destruct i| |done].
    destruct i as [|i]; [|exact Hinv0]. simpl.
    destruct Hinv as (_ & _ & Hown & _).
    unfold pendingInv. cbn [sendCalls messages sendMessage_catch setIsSending
      toast setNewMessage setMessages withSendCalls].
    apply Forall_forall. intros m Hin.
    apply list_elem_of_filter in Hin as [Hne Hin].
    rewrite Forall_forall in Hown. specialize (Hown m Hin). simpl in Hown.
    destruct (isPending m); [by destruct Hne; apply Hown | done].
  - (* MessagesResolved *)
    simpl. destruct (messagesCalls s !! i); [|done].
    simpl in Hsrv. unfold pendingInv in *.
    cbn [sendCalls messages isSending loadRoomMessages_then setIsLoading
      setMessages withMessagesCalls].
    destruct (sendCalls s) as [|c [|c' cs]]; [done| |done].
    destruct Hinv as (Hsend & _ & _ & Hstyle). split; [done|]. split.
    + rewrite pendingCount_none; [lia | done].
    + split; [|done]. eapply Forall_impl; [exact Hsrv|]. simpl. congruence.
Qed.

Lemma pendingInv_run s es :
  Forall fromServer es -> pendingInv s -> pendingInv (run s es).
Proof.
  revert s. induction es as [|e es IH]; intros s Hsrv Hinv; [done|].
  apply Forall_cons in Hsrv as [He Hes]. simpl.
  apply IH; [done|]. by apply pendingInv_step.
Qed.

(** C5: in every state the page reaches while the service answers with
    messages of its own, a submit made while a send is awaiting its answer
    changes nothing at all, and the message list holds at most one pending
    message. *)
Theorem sends_serialized (user : option User) (storage : gmap (list N) (list N))
    (rand : nat -> Random) (es : list Event) (nowMs : N) (nowIso : jsstring) :
  Forall fromServer es ->
  let s := run (mount user storage rand) es in
  (isSending s = true -> step s (Submit nowMs nowIso) = s)
  /\ (pendingCount (messages s) <= 1)%nat.
Proof.
  intros Hsrv s. split.
  - intros Hsend. simpl. by apply sendMessage_while_sending.
  - apply pendingInv_count, pendingInv_run; [done|]. apply pendingInv_mount.
Qed.

Lemma sends_serialized_witness :
  isSending sendingHello = true
  /\ step sendingHello (Submit 1701 (js "t1")) = sendingHello
  /\ (pendingCount (messages sendingHello) <= 1)%nat.
Proof.
  assert (Hsrv : Forall fromServer [Typed (js "  hello "); Submit 1700 (js "t0")]).
  { repeat constructor. }
  destruct (sends_serialized (Some alice) ∅ noRandom _ 1701 (js "t1") Hsrv)
    as [Hnoop Hcount].
  split; [reflexivity|]. split; [apply Hnoop; reflexivity | exact Hcount].
Defined.

(** ** Reconciling a send that succeeded *)

Lemma replace_none (tid : jsstring) (m : ChatMessage.t) (l : list ChatMessage.t) :
  startsWith (js "temp_") tid = true ->
  Forall (fun x => isPending x = false) l ->
  (fun msg => if decide (ChatMessage.id msg = tid) then m else msg) <$> l = l.
Proof.
  intros Htid. induction 1 as [|x l Hx _ IH]; [done|].
  rewrite fmap_cons, IH. f_equal.
  destruct (decide (ChatMessage.id x = tid)) as [Heq|]; [|done].
  unfold isPending in Hx. rewrite Heq, Htid in Hx. done.
Qed.

(** The replacement keeps every position: the entry at a position is the
    answer of the service when the entry there carried the send's
    identifier, and the entry that was there otherwise. *)
Lemma sendMessage_then_in_place c response_message s i x :
  messages s !! i = Some x ->
  messages (sendMessage_then c response_message s) !! i
  = Some (if decide (ChatMessage.id x = tempId c) then response_message else x)
  /\ length (messages (sendMessage_then c response_message s)) = length (messages s).
Proof.
  intros Hx. simpl. by rewrite list_lookup_fmap, Hx, length_fmap.
Qed.

(** Once an awaited send is answered, no send is awaited, the sending
    flag is cleared and no pending message is left. *)
Lemma answered_leaves_none s i response_message :
  pendingInv s ->
  isPending response_message = false ->
  is_Some (sendCalls s !! i) ->
  let s' := step s (SendResolved i response_message) in
  sendCalls s' = [] /\ isSending s' = false /\ pendingCount (messages s') = 0%nat.
Proof.
  intros Hinv Hresp [c Hc] s'.
  assert (Hinv' : pendingInv s') by (by apply pendingInv_step).
  assert (Hcalls : sendCalls s' = [] /\ isSending s' = false).
  { subst s'. simpl. rewrite Hc. simpl. split; [|done].
    unfold pendingInv in Hinv.
    destruct (sendCalls s) as [|c0 [|c1 cs]]; [done| |done].
    by destruct i. }
  destruct Hcalls as [Hcalls Hflag]. split; [done|]. split; [done|].
  unfold pendingInv in Hinv'. rewrite Hcalls in Hinv'.
  by apply pendingCount_none.
Qed.

(** C4, as the page behaves: in a state the page reaches, an accepted
    submit appends one pending message; when the send then succeeds and no
    message history has arrived since the submit, the answer of the service
    takes the place of the pending message, at the end of the list where it
    stood, the messages before it keep their order, no pending message is
    left and the sending flag is cleared.  Whatever happened since the
    submit, the replacement keeps the length of the list and every entry
    that is not pending in its place, and leaves no pending message. *)
Theorem send_success_reconciles (user : option User)
    (storage : gmap (list N) (list N)) (rand : nat -> Random)
    (es mid : list Event) (nowMs : N) (nowIso : jsstring)
    (response_message : ChatMessage.t) :
  Forall fromServer es ->
  let s := run (mount user storage rand) es in
  accepted s ->
  isPending response_message = false ->
  Forall quiet mid ->
  let s1 := step s (Submit nowMs nowIso) in
  let s2 := run s1 mid in
  let s3 := step s2 (SendResolved 0 response_message) in
  (exists pending : ChatMessage.t,
     isPending pending = true
     /\ ChatMessage.content pending = trim (newMessage s)
     /\ messages s2 = messages s ++ [pending]
     /\ messages s3 = messages s ++ [response_message]
     /\ pendingCount (messages s3) = 0%nat
     /\ isSending s3 = false
     /\ sendCalls s3 = [])
  /\ (forall (later : list Event) (i : nat),
        Forall fromServer later ->
        let t := run s1 later in
        let t' := step t (SendResolved i response_message) in
        is_Some (sendCalls t !! i) ->
        length (messages t') = length (messages t)
        /\ (forall (j : nat) (x : ChatMessage.t),
              messages t !! j = Some x -> isPending x = false ->
              messages t' !! j = Some x)
        /\ pendingCount (messages t') = 0%nat
        /\ isSending t' = false).
Proof.
  intros Hsrv s ([u Huser] & Htrim & Hidle) Hresp Hmid s1 s2 s3.
  assert (Hinv : pendingInv s).
  { apply pendingInv_run; [done|]. apply pendingInv_mount. }
  destruct (pendingInv_idle s Hinv Hidle) as [Hcalls Hnone].
  destruct (sendMessage_accepted nowMs nowIso s u Huser Htrim Hidle)
    as (name & anonymous & Hm & Hc & _ & Hflag & _).
  rewrite Hcalls in Hc. cbn [app] in Hc.
  assert (Hs1 : s1 = sendMessage nowMs nowIso s) by reflexivity.
  split.
  - pose proof (run_quiet s1 mid Hflag Hmid) as Hview. fold s2 in Hview.
    unfold sendView in Hview. injection Hview as Hm2 Hc2 _.
    rewrite Hs1, Hm in Hm2. rewrite Hs1, Hc in Hc2.
    assert (Hm3 : messages s3 = messages s ++ [response_message]).
    { subst s3. simpl. rewrite Hc2. simpl. rewrite Hm2, fmap_app.
      rewrite replace_none; [|apply startsWith_app|done].
      simpl. by rewrite decide_True. }
    eexists. split; [|split; [|split; [exact Hm2|]]].
    + apply startsWith_app.
    + reflexivity.
    + split; [exact Hm3|]. split.
      * rewrite Hm3, pendingCount_app, (pendingCount_none _ Hnone).
        unfold pendingCount. rewrite filter_cons, decide_False; [done|].
        by rewrite Hresp.
      * subst s3. simpl. by rewrite Hc2.
  - intros later i Hlater t t' Hawait.
    assert (Hinvt : pendingInv t).
    { apply pendingInv_run; [done|]. by apply pendingInv_step. }
    destruct (answered_leaves_none t i response_message Hinvt Hresp Hawait)
      as (_ & Hflagt & Hcount).
    fold t' in Hflagt, Hcount.
    destruct Hawait as [c Hc'].
    assert (Ht' : messages t' = messages (sendMessage_then c response_message t)).
    { subst t'. simpl. by rewrite Hc'. }
    split; [|split; [|by split]].
    + rewrite Ht'. simpl. by rewrite length_fmap.
    + intros j x Hx Hpx. rewrite Ht'.
      destruct (sendMessage_then_in_place c response_message t j x Hx) as [-> _].
      destruct (decide (ChatMessage.id x = tempId c)) as [Heq|]; [|done].
      unfold pendingInv in Hinvt.
      destruct (sendCalls t) as [|c0 [|c1 cs]]; [by destruct i| |done].
      destruct i; [|done]. injection Hc' as ->.
      destruct Hinvt as (_ & _ & _ & Hstyle).
      unfold isPending in Hpx. rewrite Heq, Hstyle in Hpx. done.
Qed.

Lemma send_success_reconciles_witness :
  let s := run (mount (Some alice) ∅ noRandom) [Typed (js "  hello ")] in
  let s1 := step s (Submit 1700 (js "t0")) in
  let s2 := run s1 [Rendered; RoomsRejected] in
  let s3 := step s2 (SendResolved 0 (serverMsg "m1" "global" "hello")) in
  exists pending : ChatMessage.t,
    isPending pending = true
    /\ ChatMessage.content pending = trim (newMessage s)
    /\ messages s2 = messages s ++ [pending]
    /\ messages s3 = messages s ++ [serverMsg "m1" "global" "hello"]
    /\ pendingCount (messages s3) = 0%nat
    /\ isSending s3 = false
    /\ sendCalls s3 = [].
Proof.
  apply (send_success_reconciles (Some alice) ∅ noRandom
           [Typed (js "  hello ")] [Rendered; RoomsRejected] 1700 (js "t0")
           (serverMsg "m1" "global" "hello")).
  - repeat constructor.
  - split; [by eexists | split; reflexivity].
  - reflexivity.
  - repeat constructor.
Defined.

(** C4 fails as stated: the user submits "hello" while the first load of
    the global room is still awaited; the history arrives and replaces the
    list, pending message included; the send then succeeds, finds nothing to
    replace, and the list holds no message for that send. *)
Lemma history_arrival_drops_sent_message :
  let s1 := step typedHello (Submit 1700 (js "t0")) in
  let s2 := step s1 (MessagesResolved 0 (Some [serverMsg "a1" "global" "older"])) in
  let s3 := step s2 (SendResolved 0 (serverMsg "m1" "global" "hello")) in
  accepted typedHello
  /\ pendingCount (messages s1) = 1%nat
  /\ sendCalls s2 = sendCalls s1
  /\ isSending s3 = false
  /\ messages s3 = [serverMsg "a1" "global" "older"]
  /\ serverMsg "m1" "global" "hello" ∉ messages s3.
Proof.
  split; [split; [by eexists | split; vm_compute; reflexivity]|].
  split; [vm_compute; reflexivity|]. split; [vm_compute; reflexivity|].
  split; [vm_compute; reflexivity|].
  assert (Hlist : messages
            (step (step (step typedHello (Submit 1700 (js "t0")))
                     (MessagesResolved 0 (Some [serverMsg "a1" "global" "older"])))
               (SendResolved 0 (serverMsg "m1" "global" "hello")))
          = [serverMsg "a1" "global" "older"]) by (vm_compute; reflexivity).
  split; [exact Hlist|]. rewrite Hlist.
  intros Hin. apply list_elem_of_singleton in Hin. vm_compute in Hin. discriminate Hin.
Qed.

(** ** Switching rooms while a load is awaited *)

(** C1, as the page behaves: a message history that arrives replaces the
    message list, whichever room is active.  With a load for room [A]
    awaited, after the user switches to another room [B] and [B]'s history
    has arrived, the late arrival of [A]'s history replaces the list shown
    for [B], and [B] stays the active room. *)
Theorem late_load_replaces (s : State) (i : nat) (A B : jsstring)
    (messagesA messagesB : option (list ChatMessage.t)) :
  messagesCalls s !! i = Some A ->
  B <> activeRoomId s ->
  truthy B = true ->
  let s1 := step s (RoomSelect B) in
  let s2 := step s1 (MessagesResolved (length (messagesCalls s)) messagesB) in
  let s3 := step s2 (MessagesResolved i messagesA) in
  messagesCalls s1 = messagesCalls s ++ [B]
  /\ activeRoomId s2 = B /\ messages s2 = default [] messagesB
  /\ activeRoomId s3 = B /\ messages s3 = default [] messagesA.
Proof.
  intros HA HB Htruthy s1 s2 s3.
  assert (Hs1 : s1 = loadRoomMessages B (writeActiveRoomId s B)).
  { subst s1. simpl. unfold handleRoomSelect, setActiveRoomId.
    by rewrite decide_False, Htruthy. }
  assert (Hlookup : (messagesCalls s ++ [B]) !! length (messagesCalls s) = Some B).
  { by rewrite lookup_app_r, Nat.sub_diag. }
  assert (Hdelete : delete (length (messagesCalls s)) (messagesCalls s ++ [B])
                    = messagesCalls s).
  { clear. induction (messagesCalls s) as [|a l IH]; [done|]. simpl. by rewrite IH. }
  assert (Hs2 : messagesCalls s2 = messagesCalls s /\ activeRoomId s2 = B
                /\ messages s2 = default [] messagesB).
  { subst s2. rewrite Hs1. simpl. rewrite Hlookup. simpl. by rewrite Hdelete. }
  destruct Hs2 as (Hcalls2 & Hactive2 & Hmessages2).
  split; [by rewrite Hs1|]. split; [done|]. split; [done|].
  subst s3. simpl. rewrite Hcalls2, HA. simpl. done.
Qed.

Lemma late_load_replaces_witness :
  let s1 := step mounted (RoomSelect (js "r1")) in
  let s2 := step s1 (MessagesResolved 1 (Some [serverMsg "b1" "r1" "in B"])) in
  let s3 := step s2 (MessagesResolved 0 (Some [serverMsg "a1" "global" "in A"])) in
  activeRoomId s3 = js "r1" /\ messages s3 = [serverMsg "a1" "global" "in A"].
Proof.
  destruct (late_load_replaces mounted 0 (js "global") (js "r1")
              (Some [serverMsg "a1" "global" "in A"])
              (Some [serverMsg "b1" "r1" "in B"]))
    as (_ & _ & _ & Hactive & Hmessages).
  - reflexivity.
  - vm_compute. discriminate.
  - reflexivity.
  - split; [exact Hactive | exact Hmessages].
Defined.

(** C1 fails as stated: with the load for "global" still awaited, the user
    switches to "r1", the history of "r1" arrives and is shown, and then the
    late history of "global" replaces it while "r1" remains the active
    room. *)
Lemma late_load_overwrites_active_room :
  let s1 := step mounted (RoomSelect (js "r1")) in
  let s2 := step s1 (MessagesResolved 1 (Some [serverMsg "b1" "r1" "in B"])) in
  let s3 := step s2 (MessagesResolved 0 (Some [serverMsg "a1" "global" "in A"])) in
  messagesCalls mounted = [js "global"]
  /\ activeRoomId s2 = js "r1"
  /\ messages s2 = [serverMsg "b1" "r1" "in B"]
  /\ activeRoomId s3 = js "r1"
  /\ messages s3 = [serverMsg "a1" "global" "in A"]
  /\ messages s3 <> messages s2.
Proof. vm_compute. repeat split. discriminate. Qed.

(** ** One session username *)

Lemma setActiveRoomId_sessionView r s :
  sessionView (setActiveRoomId r s) = sessionView s.
Proof.
  unfold setActiveRoomId. destruct (decide (r = activeRoomId s)); [done|].
  by destruct (truthy r).
Qed.

Lemma step_sessionView s e :
  match e with
  | Submit _ _ | Rendered => True
  | _ => sessionView (step s e) = sessionView s
  end.
Proof.
  destruct e; try exact I; simpl.
  - by destruct (isSending s || _).
  - by destruct (sendCalls s !! i).
  - by destruct (sendCalls s !! i).
  - apply setActiveRoomId_sessionView.
  - by destruct (messagesCalls s !! i).
  - by destruct (messagesCalls s !! i).
  - destruct (roomsCalls s); [done|].
    unfold loadChatRooms_then. by destruct (response_rooms ≫= _).
  - by destruct (roomsCalls s).
  - by destruct (profileCalls s).
  - by destruct (profileCalls s).
  - unfold handleRoomCreated. by rewrite setActiveRoomId_sessionView.
  - unfold handleRoomJoined. by rewrite setActiveRoomId_sessionView.
  - done.
  - unfold handleRoomLeft. destruct (decide (activeRoomId s = roomId)); [|done].
    by rewrite setActiveRoomId_sessionView.
  - unfold handleRoomDeleted. destruct (decide (activeRoomId s = roomId)); [|done].
    by rewrite setActiveRoomId_sessionView.
Qed.

(** A property of the session view that calls of [getSessionUsername]
    keep is kept by every event. *)
Section SessionProperty.
Variable Q : State -> Prop.
Hypothesis Q_view : forall s s', sessionView s' = sessionView s -> Q s -> Q s'.
Hypothesis Q_call : forall snap s, Q snap -> Q s -> Q (getSessionUsername snap s).2.

Lemma renderMessages_keeps snap ms s :
  Q snap -> Q s -> Q (renderMessages snap ms s).2.
Proof.
  intros Hsnap. revert s. induction ms as [|m ms IH]; intros s Hs; [done|].
  simpl. unfold isOwnMessage.
  destruct (currentUser snap) as [user|].
  - destruct (decide (activeRoomId snap = js "global")).
    + pose proof (Q_call snap s Hsnap Hs) as Hcall.
      destruct (getSessionUsername snap s) as [n s1].
      pose proof (IH s1 Hcall) as Hrest.
      by destruct (renderMessages snap ms s1) as [rest s2].
    + pose proof (IH s Hs) as Hrest.
      by destruct (renderMessages snap ms s) as [rest s2].
  - pose proof (IH s Hs) as Hrest.
    by destruct (renderMessages snap ms s) as [rest s2].
Qed.

Lemma sendMessage_keeps nowMs nowIso s : Q s -> Q (sendMessage nowMs nowIso s).
Proof.
  intros Hs. unfold sendMessage.
  destruct (currentUser s) as [user|]; [|done].
  destruct (negb (truthy (trim (newMessage s))) || isSending s); [done|].
  cbn [Math_random].
  set (s3 := Build_State _ _ _ _ _ _ _ _ _ _ _ _ _ _ _ _ _ _).
  assert (H3 : Q s3) by (by apply (Q_view s)).
  destruct (decide (activeRoomId s = js "global")).
  - pose proof (Q_call s s3 Hs H3) as H4.
    destruct (getSessionUsername s s3) as [name s4]. cbn [snd] in H4.
    rewrite getSessionUsername_setMessages.
    pose proof (Q_call s s4 Hs H4) as H6.
    destruct (getSessionUsername s s4) as [n s6]. cbn [fst snd] in *.
    by apply (Q_view s6).
  - by apply (Q_view s3).
Qed.

Lemma step_keeps s e : Q s -> Q (step s e).
Proof.
  intros Hs. pose proof (step_sessionView s e) as Hframe.
  destruct e; try (by apply (Q_view s)).
  - by apply sendMessage_keeps.
  - simpl. unfold render. destruct (isLoading s); [done|].
    by apply renderMessages_keeps.
Qed.

Lemma run_keeps s es : Q s -> Q (run s es).
Proof.
  revert s. induction es as [|e es IH]; intros s Hs; [done|].
  simpl. by apply IH, step_keeps.
Qed.
End SessionProperty.

Lemma sessionInv_view s s' : sessionView s' = sessionView s -> sessionInv s -> sessionInv s'.
Proof.
  unfold sessionView, sessionInv, storedUsername. intros [= -> -> ->]. done.
Qed.

Lemma settled_view u s s' : sessionView s' = sessionView s -> settled u s -> settled u s'.
Proof.
  unfold sessionView, settled, storedUsername. intros [= -> -> _]. done.
Qed.

Lemma storedUsername_setItem s v :
  storedUsername (setCurrentUsername (setItem (Math_random s).2 (js "chatUsername") v) v) = v.
Proof. unfold storedUsername. simpl. by rewrite lookup_insert_eq. Qed.

Lemma sessionInv_call snap s :
  sessionInv snap -> sessionInv s -> sessionInv (getSessionUsername snap s).2.
Proof.
  intros _ [Hcur Hlog].
  destruct (getSessionUsername_cases snap s)
    as [[_ E] | [(_ & Hst & E) | (_ & Hst & E)]]; rewrite E; cbn [snd].
  - by split.
  - split; [by right|]. exact Hlog.
  - cbv zeta. split.
    + right. by rewrite storedUsername_setItem.
    + right. rewrite storedUsername_setItem.
      destruct Hlog as [Hlog | [_ Htr]]; [|by rewrite Hst in Htr].
      simpl. by rewrite Hlog.
Qed.

Lemma settled_result u snap s :
  settled u snap -> settled u s ->
  getSessionUsername snap s = (u, s)
  \/ getSessionUsername snap s = (u, setCurrentUsername s u).
Proof.
  intros (Htr & _ & Hsnap) (_ & Hst & _).
  destruct (getSessionUsername_cases snap s)
    as [[Hcur E] | [(_ & _ & E) | (_ & Hst' & _)]].
  - left. destruct Hsnap as [Hsnap|Hsnap]; [by rewrite Hsnap in Hcur|].
    by rewrite E, Hsnap.
  - right. by rewrite E, Hst.
  - rewrite Hst' in Hst. by rewrite <-Hst in Htr.
Qed.

Lemma settled_call u snap s :
  settled u snap -> settled u s -> settled u (getSessionUsername snap s).2.
Proof.
  intros Hsnap Hs.
  destruct (settled_result u snap s Hsnap Hs) as [E|E]; rewrite E; [done|].
  destruct Hs as (Htr & Hst & _).
  split; [done|]. split; [done|]. by right.
Qed.

(** After a call in a state that satisfies the invariant, the session
    username is the one returned. *)
Lemma sessionInv_settles s :
  sessionInv s ->
  settled (getSessionUsername s s).1 (getSessionUsername s s).2.
Proof.
  intros [Hcur Hlog].
  destruct (getSessionUsername_cases s s)
    as [[Htr E] | [(_ & Hst & E) | (_ & Hst & E)]]; rewrite E; cbn [fst snd].
  - destruct Hcur as [Hcur|Hcur]; [by rewrite Hcur in Htr|].
    split; [done|]. split; [done|]. by right.
  - split; [done|]. split; [done|]. by right.
  - cbv zeta. split; [done|]. split; [apply storedUsername_setItem|]. by right.
Qed.

Lemma sessionInv_mount user storage rand : sessionInv (mount user storage rand).
Proof.
  unfold mount, initialState. cbn [currentUser activeRoomId].
  destruct user; split; by left.
Qed.

(** C8: in every session, a call of [getSessionUsername] made after any
    events, a second call from the same closure, and a call made after any
    further events (room switches and renders among them) all return the
    same username; the later call writes nothing to the session storage,
    and over the whole session the storage is written at most once. *)
Theorem session_username_stable (user : option User)
    (storage : gmap (list N) (list N)) (rand : nat -> Random)
    (es1 es2 : list Event) :
  let s1 := run (mount user storage rand) es1 in
  let first := getSessionUsername s1 s1 in
  let s2 := run first.2 es2 in
  let later := getSessionUsername s2 s2 in
  (getSessionUsername s1 first.2).1 = first.1
  /\ later.1 = first.1
  /\ setItemLog later.2 = setItemLog first.2
  /\ sessionStorage later.2 = sessionStorage first.2
  /\ (length (setItemLog later.2) <= 1)%nat.
Proof.
  intros s1 first s2 later.
  assert (Hinv1 : sessionInv s1).
  { apply (run_keeps sessionInv sessionInv_view sessionInv_call).
    apply sessionInv_mount. }
  assert (Hinvf : sessionInv first.2) by (by apply sessionInv_call).
  pose proof (sessionInv_settles s1 Hinv1) as Hset. fold first in Hset.
  assert (Hset2 : settled first.1 s2).
  { by apply (run_keeps (settled first.1) (settled_view _) (settled_call _)). }
  assert (Hinv2 : sessionInv s2).
  { by apply (run_keeps sessionInv sessionInv_view sessionInv_call). }
  split; [|split].
  - unfold first. by rewrite getSessionUsername_again.
  - subst later.
    by destruct (settled_result _ s2 s2 Hset2 Hset2) as [E|E]; rewrite E.
  - assert (Hlater : setItemLog later.2 = setItemLog s2
                     /\ sessionStorage later.2 = sessionStorage s2).
    { subst later.
      by destruct (settled_result _ s2 s2 Hset2 Hset2) as [E|E]; rewrite E. }
    destruct Hlater as [Hlog Hsto].
    assert (Hinvl : sessionInv later.2) by (by apply sessionInv_call).
    assert (Hkeep : setItemLog s2 = setItemLog first.2
                    /\ sessionStorage s2 = sessionStorage first.2).
    { set (Q := fun s => settled first.1 s /\ setItemLog s = setItemLog first.2
                         /\ sessionStorage s = sessionStorage first.2).
      assert (HQ : Q s2); [|by destruct HQ].
      apply (run_keeps Q).
      - intros s s' Hv [Hs Heq]. split; [by eapply settled_view|].
        unfold sessionView in Hv. injection Hv as _ -> ->. done.
      - intros snap s [Hsnap _] [Hs [Heq1 Heq2]]. split; [by apply settled_call|].
        by destruct (settled_result _ snap s Hsnap Hs) as [E|E]; rewrite E.
      - by split. }
    destruct Hkeep as [Hkl Hks].
    split; [congruence|]. split; [congruence|].
    destruct Hinvl as [_ [Hnil | [Hone _]]]; [rewrite Hnil; simpl; lia | lia].
Qed.

(** * Further properties of the page *)

(** ** Updating and removing rooms *)

(** X1: a room update replaces, at their positions, the entries that carry
    the updated room's id and nothing else: the list keeps its length and
    its sequence of ids, the active room is untouched, and a later update
    for the same id overrides an earlier one (so delivering an update twice
    is the same as delivering it once). *)
Theorem handleRoomUpdated_in_place (r r' : ChatRoom.t) (s : State) :
  let s' := handleRoomUpdated r s in
  length (rooms s') = length (rooms s)
  /\ ChatRoom.id <$> rooms s' = ChatRoom.id <$> rooms s
  /\ (forall (i : nat) (x : ChatRoom.t),
        rooms s !! i = Some x ->
        rooms s' !! i = Some (if decide (ChatRoom.id x = ChatRoom.id r) then r else x))
  /\ activeRoomId s' = activeRoomId s
  /\ (ChatRoom.id r ∉ ChatRoom.id <$> rooms s -> rooms s' = rooms s)
  /\ (ChatRoom.id r' = ChatRoom.id r ->
      handleRoomUpdated r' s' = handleRoomUpdated r' s).
Proof.
  simpl. split; [by rewrite length_fmap|]. split; [|split; [|split; [done|split]]].
  - rewrite <-list_fmap_compose. apply list_fmap_ext. intros i x _. simpl.
    by destruct (decide (ChatRoom.id x = ChatRoom.id r)).
  - intros i x Hx. by rewrite list_lookup_fmap, Hx.
  - intros Habs. induction (rooms s) as [|x l IH]; [done|].
    rewrite fmap_cons, not_elem_of_cons in Habs. destruct Habs as [Hne Habs].
    rewrite fmap_cons, (IH Habs). by rewrite decide_False.
  - intros Hid. unfold handleRoomUpdated, setRooms. simpl. f_equal.
    rewrite <-list_fmap_compose. apply list_fmap_ext. intros i x _. simpl.
    destruct (decide (ChatRoom.id x = ChatRoom.id r)) as [Hx|Hx].
    + rewrite decide_True by done. by rewrite decide_True by congruence.
    + done.
Qed.

Lemma handleRoomUpdated_in_place_witness :
  let renamed :=
    {| ChatRoom.id := js "r1"; ChatRoom.name := js "Algebra"; ChatRoom.code := js "STUDY1";
       ChatRoom.type := private; ChatRoom.members := [js "u1"];
       ChatRoom.createdBy := js "u1"; ChatRoom.createdAt := js "2024-01-01T00:00:00.000Z";
       ChatRoom.maxMembers := 5; ChatRoom.unreadCount := 0 |} in
  let s := step mounted (RoomCreated room1) in
  rooms (handleRoomUpdated renamed (handleRoomUpdated room1 s))
  = rooms (handleRoomUpdated renamed s).
Proof.
  intros renamed s.
  destruct (handleRoomUpdated_in_place room1 renamed s) as (_ & _ & _ & _ & _ & Hlast).
  by rewrite Hlast.
Defined.

Lemma filter_id_ne_idem (rid : jsstring) (l : list ChatRoom.t) :
  filter (fun room => ChatRoom.id room <> rid)
    (filter (fun room => ChatRoom.id room <> rid) l)
  = filter (fun room => ChatRoom.id room <> rid) l.
Proof.
  induction l as [|x l IH]; [done|].
  rewrite (filter_cons _ x l). destruct (decide (ChatRoom.id x <> rid)) as [Hx|Hx].
  - by rewrite filter_cons, decide_True, IH.
  - exact IH.
Qed.

(** X2: leaving (or deleting) a room removes every entry with that id and
    keeps the other rooms in their order; when the room was the active one
    the active room falls back to "global" and, unless the room left was
    "global" itself, the history of "global" is requested; otherwise the
    active room and the awaited loads are untouched.  [handleRoomDeleted]
    does the same, and a second delivery of the event changes nothing. *)
Theorem handleRoomLeft_removes (rid : jsstring) (s : State) :
  let s' := handleRoomLeft rid s in
  roomIdCount rid (rooms s') = 0%nat
  /\ (forall room, room ∈ rooms s' <-> room ∈ rooms s /\ ChatRoom.id room <> rid)
  /\ rooms s' `sublist_of` rooms s
  /\ (activeRoomId s = rid -> activeRoomId s' = js "global")
  /\ (activeRoomId s = rid -> rid <> js "global" ->
      messagesCalls s' = messagesCalls s ++ [js "global"] /\ isLoading s' = true)
  /\ (activeRoomId s <> rid ->
      activeRoomId s' = activeRoomId s /\ messagesCalls s' = messagesCalls s)
  /\ messages s' = messages s
  /\ handleRoomDeleted rid s = s'
  /\ handleRoomLeft rid s' = s'.
Proof.
  set (l' := filter (fun room => ChatRoom.id room <> rid) (rooms s)).
  assert (Hrooms : rooms (handleRoomLeft rid s) = l').
  { unfold handleRoomLeft. destruct (decide (activeRoomId s = rid)); [|done].
    by rewrite setActiveRoomId_rooms. }
  cbv zeta. rewrite Hrooms.
  split; [|split; [|split; [|split; [|split; [|split; [|split; [|split]]]]]]].
  - apply roomIdCount_absent. intros Hin.
    apply list_elem_of_fmap in Hin as (room & Hid & Hroom).
    apply list_elem_of_filter in Hroom as [Hne _]. by destruct Hne.
  - intros room. unfold l'. rewrite list_elem_of_filter. tauto.
  - apply sublist_filter.
  - intros Hact. unfold handleRoomLeft. rewrite decide_True by done.
    apply setActiveRoomId_active.
  - intros Hact Hne. unfold handleRoomLeft. rewrite decide_True by done.
    unfold setActiveRoomId. cbn [activeRoomId setRooms].
    rewrite decide_False by congruence. done.
  - intros Hact. unfold handleRoomLeft. by rewrite decide_False.
  - unfold handleRoomLeft. destruct (decide (activeRoomId s = rid)); [|done].
    pose proof (setActiveRoomId_sendView (js "global")
                  (setRooms s (fun prev => filter (fun room => ChatRoom.id room <> rid) prev)))
      as Hview.
    unfold sendView in Hview. by injection Hview.
  - reflexivity.
  - assert (Hidem : forall t, activeRoomId t <> rid \/ activeRoomId t = js "global" ->
                      rooms t = l' -> handleRoomLeft rid t = t).
    { intros t Hact Ht. unfold handleRoomLeft.
      assert (Hset : setRooms t (fun prev => filter (fun room => ChatRoom.id room <> rid) prev) = t).
      { destruct t. unfold setRooms. simpl in *. subst rooms0. unfold l'.
        by rewrite filter_id_ne_idem. }
      rewrite Hset. destruct (decide (activeRoomId t = rid)) as [Heq|]; [|done].
      destruct Hact as [Hne|Hg]; [done|].
      unfold setActiveRoomId. by rewrite decide_True. }
    apply Hidem; [|done].
    unfold handleRoomLeft. destruct (decide (activeRoomId s = rid)) as [Heq|Hne].
    + right. apply setActiveRoomId_active.
    + by left.
Qed.

(** ** The chat profile *)

(** X3: however the profile request ends, the display name the page keeps
    afterwards is never empty: the profile's chat display name when the
    request succeeds with a non-empty one, else the caller's own display
    name when it is non-empty, else "You".  A failed request raises no
    toast. *)
Theorem chat_display_name_fallback (profileName : option jsstring) (s : State) :
  let ok := loadChatProfile_then profileName s in
  let failed := loadChatProfile_catch s in
  truthy (chatDisplayName ok) = true
  /\ truthy (chatDisplayName failed) = true
  /\ (truthy (default [] profileName) = true ->
      chatDisplayName ok = default [] profileName)
  /\ (truthy (default [] profileName) = false ->
      chatDisplayName ok = chatDisplayName failed)
  /\ chatDisplayName failed
     = (if truthy (userDisplayName s) then userDisplayName s else js "You")
  /\ toasts failed = toasts s /\ toasts ok = toasts s
  /\ messages failed = messages s /\ rooms failed = rooms s.
Proof.
  simpl. unfold orElse.
  destruct (truthy (default [] profileName)) eqn:Hp;
    destruct (truthy (userDisplayName s)) eqn:Hu; by repeat split.
Qed.

(** ** A message history that fails to load *)

Lemma renderMessages_length snap ms s :
  length (renderMessages snap ms s).1 = length ms.
Proof.
  revert s. induction ms as [|m ms IH]; intros s; [done|].
  simpl. destruct (isOwnMessage snap m s) as [own s1].
  pose proof (IH s1) as Hrest.
  destruct (renderMessages snap ms s1) as [rest s2]. simpl in *. by rewrite Hrest.
Qed.

Lemma delete_last_app {A} (l : list A) (x : A) : delete (length l) (l ++ [x]) = l.
Proof. induction l as [|a l IH]; [done|]. simpl. by rewrite IH. Qed.

(** X4: when the user switches to another room and the load of its history
    fails, the page raises the toast "Failed to load messages" and stops
    loading, but the message list is left as it was: the messages of the
    room shown before stay on display under the new active room. *)
Theorem failed_load_keeps_previous_messages (B : jsstring) (s : State) :
  B <> activeRoomId s ->
  truthy B = true ->
  let s1 := step s (RoomSelect B) in
  let s2 := step s1 (MessagesRejected (length (messagesCalls s))) in
  isLoading s1 = true
  /\ activeRoomId s2 = B
  /\ messages s2 = messages s
  /\ isLoading s2 = false
  /\ messagesCalls s2 = messagesCalls s
  /\ toasts s2 = toasts s ++ [ {| title := js "Error";
                                  description := js "Failed to load messages";
                                  variant := js "destructive" |} ]
  /\ length (render s2).1 = length (messages s).
Proof.
  intros HB Htruthy s1 s2.
  assert (Hs1 : s1 = loadRoomMessages B (writeActiveRoomId s B)).
  { subst s1. simpl. unfold handleRoomSelect, setActiveRoomId.
    by rewrite decide_False, Htruthy. }
  assert (Hs2 : s2 = loadRoomMessages_catch
                       (withMessagesCalls s1 (messagesCalls s))).
  { subst s2. rewrite Hs1. simpl.
    by rewrite lookup_app_r, Nat.sub_diag, delete_last_app. }
  split; [by rewrite Hs1|].
  rewrite Hs2, Hs1. simpl. repeat split.
  unfold render. simpl. apply renderMessages_length.
Qed.

Lemma failed_load_keeps_previous_messages_witness :
  let s1 := step shownGlobal (RoomSelect (js "r1")) in
  let s2 := step s1 (MessagesRejected 0) in
  activeRoomId s2 = js "r1"
  /\ messages s2 = [serverMsg "m1" "global" "hi"; serverMsg "m2" "global" "yo"]
  /\ isLoading s2 = false.
Proof.
  destruct (failed_load_keeps_previous_messages (js "r1") shownGlobal)
    as (_ & Hactive & Hmessages & Hloading & _).
  - vm_compute. discriminate.
  - reflexivity.
  - split; [exact Hactive|]. split; [exact Hmessages | exact Hloading].
Defined.

(** ** The flags follow the awaited calls *)

Lemma sendMessage_frame nowMs nowIso s :
  let s' := sendMessage nowMs nowIso s in
  rooms s' = rooms s /\ activeRoomId s' = activeRoomId s
  /\ isLoading s' = isLoading s /\ chatDisplayName s' = chatDisplayName s
  /\ currentUser s' = currentUser s /\ toasts s' = toasts s
  /\ roomsCalls s' = roomsCalls s /\ profileCalls s' = profileCalls s
  /\ messagesCalls s' = messagesCalls s.
Proof.
  unfold sendMessage.
  destruct (currentUser s) as [user|] eqn:Huser; [|by rewrite Huser].
  destruct (negb (truthy (trim (newMessage s))) || isSending s); [by rewrite Huser|].
  cbn [Math_random].
  set (s3 := Build_State _ _ _ _ _ _ _ _ _ _ _ _ _ _ _ _ _ _).
  destruct (decide (activeRoomId s = js "global")).
  - pose proof (getSessionUsername_frame s s3) as H3.
    destruct (getSessionUsername s s3) as [name s4]. cbn [snd] in H3.
    rewrite getSessionUsername_setMessages.
    pose proof (getSessionUsername_frame s s4) as H4.
    destruct (getSessionUsername s s4) as [n s6]. cbn [fst snd] in *.
    unfold sameChat in *. simpl in *. destruct_and!.
    repeat split; congruence.
  - simpl. by rewrite Huser.
Qed.

Lemma sendMessage_cases nowMs nowIso s :
  sendMessage nowMs nowIso s = s
  \/ (isSending s = false
      /\ exists (pending : ChatMessage.t) (c : SendCall),
           messages (sendMessage nowMs nowIso s) = messages s ++ [pending]
           /\ sendCalls (sendMessage nowMs nowIso s) = sendCalls s ++ [c]
           /\ isSending (sendMessage nowMs nowIso s) = true).
Proof.
  destruct (currentUser s) as [user|] eqn:Huser;
    [|by left; unfold sendMessage; rewrite Huser].
  destruct (truthy (trim (newMessage s))) eqn:Htrim;
    [|by left; unfold sendMessage; rewrite Huser, Htrim].
  destruct (isSending s) eqn:Hsend; [by left; rewrite sendMessage_while_sending|].
  right. split; [done|].
  destruct (sendMessage_accepted nowMs nowIso s user Huser Htrim Hsend)
    as (name & anonymous & Hm & Hc & _ & Hflag & _).
  by eexists _, _.
Qed.

Lemma sendFlagInv_step s e : sendFlagInv s -> sendFlagInv (step s e).
Proof.
  intros Hinv. pose proof (step_sendView s e) as Hframe.
  assert (Hview : forall t, sendView t = sendView s -> sendFlagInv t).
  { intros t [= Hm Hc Hs]. unfold sendFlagInv. by rewrite Hc, Hs. }
  destruct e; try (by apply Hview).
  - simpl. destruct (sendMessage_cases nowMs nowIso s)
      as [-> | (Hidle & pending & c & _ & Hc & Hflag)]; [done|].
    unfold sendFlagInv in *. rewrite Hc, Hflag.
    destruct (sendCalls s) as [|c0 [|c1 cs]]; [done| congruence | done].
  - simpl. unfold sendFlagInv in Hinv |- *.
    destruct (sendCalls s) as [|c0 [|c1 cs]] eqn:Hcalls;
      [destruct i; simpl; by rewrite Hcalls| |done].
    destruct i as [|i]; simpl; [done | by rewrite Hcalls].
  - simpl. unfold sendFlagInv in Hinv |- *.
    destruct (sendCalls s) as [|c0 [|c1 cs]] eqn:Hcalls;
      [destruct i; simpl; by rewrite Hcalls| |done].
    destruct i as [|i]; simpl; [done | by rewrite Hcalls].
  - simpl. destruct (messagesCalls s !! i); [|done]. exact Hinv.
Qed.

Lemma sendFlagInv_run s es : sendFlagInv s -> sendFlagInv (run s es).
Proof.
  revert s. induction es as [|e es IH]; intros s Hs; [done|].
  simpl. by apply IH, sendFlagInv_step.
Qed.

Lemma sendFlagInv_mount user storage rand : sendFlagInv (mount user storage rand).
Proof.
  unfold mount, initialState. cbn [currentUser activeRoomId]. by destruct user.
Qed.

(** X5: in every state the page reaches, at most one send is awaiting its
    answer, and the sending flag (which disables the input and the button)
    is set exactly while one is: the compose field cannot stay disabled once
    the send has been answered. *)
Theorem sending_flag_accurate (user : option User)
    (storage : gmap (list N) (list N)) (rand : nat -> Random) (es : list Event) :
  let s := run (mount user storage rand) es in
  (length (sendCalls s) <= 1)%nat
  /\ (isSending s = true <-> sendCalls s <> []).
Proof.
  intros s.
  assert (Hinv : sendFlagInv s) by apply sendFlagInv_run, sendFlagInv_mount.
  unfold sendFlagInv in Hinv.
  destruct (sendCalls s) as [|c0 [|c1 cs]]; [| |done].
  - simpl. split; [lia|]. rewrite Hinv. split; done.
  - simpl. split; [lia|]. rewrite Hinv. split; done.
Qed.

Lemma setActiveRoomId_loadingInv r s : loadingInv s -> loadingInv (setActiveRoomId r s).
Proof.
  intros Hinv. unfold setActiveRoomId.
  destruct (decide (r = activeRoomId s)); [done|].
  destruct (truthy r); [|exact Hinv].
  unfold loadingInv. simpl. intros Hnil. by apply app_nil in Hnil as [_ ?].
Qed.

Lemma loadingInv_step s e : loadingInv s -> loadingInv (step s e).
Proof.
  intros Hinv.
  assert (Hview : forall t, loadView t = loadView s -> loadingInv t).
  { intros t [= Hc Hl]. unfold loadingInv. by rewrite Hc, Hl. }
  destruct e; simpl.
  - by destruct (isSending s || _).
  - destruct (sendMessage_frame nowMs nowIso s) as (_ & _ & Hl & _ & _ & _ & _ & _ & Hc).
    apply Hview. unfold loadView. by rewrite Hl, Hc.
  - by destruct (sendCalls s !! i).
  - by destruct (sendCalls s !! i).
  - by apply setActiveRoomId_loadingInv.
  - by destruct (messagesCalls s !! i).
  - by destruct (messagesCalls s !! i).
  - destruct (roomsCalls s); [done|].
    unfold loadChatRooms_then. by destruct (response_rooms ≫= _).
  - by destruct (roomsCalls s).
  - by destruct (profileCalls s).
  - by destruct (profileCalls s).
  - by apply setActiveRoomId_loadingInv.
  - by apply setActiveRoomId_loadingInv.
  - done.
  - unfold handleRoomLeft. destruct (decide (activeRoomId s = roomId)); [|done].
    by apply setActiveRoomId_loadingInv.
  - unfold handleRoomDeleted. destruct (decide (activeRoomId s = roomId)); [|done].
    by apply setActiveRoomId_loadingInv.
  - destruct (render_frame s) as (_ & _ & _ & _ & Hl & _ & _ & _ & _ & _ & _ & Hc & _).
    apply Hview. unfold loadView. by rewrite Hl, Hc.
Qed.

Lemma loadingInv_run s es : loadingInv s -> loadingInv (run s es).
Proof.
  revert s. induction es as [|e es IH]; intros s Hs; [done|].
  simpl. by apply IH, loadingInv_step.
Qed.

(** X6: in every state the page reaches, once no message history is
    awaited the loading placeholder is off.  The flag is cleared by every
    answer, though: when several loads are awaited, the first answer (or
    failure) already turns the placeholder off while the others are still
    awaited. *)
Theorem loading_flag_clears (user : option User)
    (storage : gmap (list N) (list N)) (rand : nat -> Random) (es : list Event)
    (i : nat) (response_messages : option (list ChatMessage.t)) :
  let s := run (mount user storage rand) es in
  (messagesCalls s = [] -> isLoading s = false)
  /\ (is_Some (messagesCalls s !! i) ->
      isLoading (step s (MessagesResolved i response_messages)) = false
      /\ isLoading (step s (MessagesRejected i)) = false
      /\ messagesCalls (step s (MessagesResolved i response_messages))
         = delete i (messagesCalls s)
      /\ messagesCalls (step s (MessagesRejected i)) = delete i (messagesCalls s)).
Proof.
  intros s. split.
  - apply loadingInv_run. unfold loadingInv, mount, initialState.
    cbn [currentUser activeRoomId]. by destruct user.
  - intros [r Hr]. simpl. by rewrite Hr.
Qed.

Lemma loading_flag_clears_witness :
  let s := run mounted [RoomSelect (js "r1")] in
  messagesCalls s = [js "global"; js "r1"]
  /\ isLoading (step s (MessagesResolved 0 None)) = false
  /\ messagesCalls (step s (MessagesResolved 0 None)) = [js "r1"].
Proof.
  destruct (loading_flag_clears (Some alice) ∅ noRandom [RoomSelect (js "r1")] 0 None)
    as [_ Hanswer].
  destruct Hanswer as (Hflag & _ & Hcalls & _); [by eexists|].
  split; [reflexivity|]. split; [exact Hflag | exact Hcalls].
Defined.

(** ** What is sent *)

Lemma trimStart_spec s :
  exists pre,
    s = pre ++ trimStart s
    /\ Forall (fun c => isWhiteSpace c = true) pre
    /\ match trimStart s with [] => True | a :: _ => isWhiteSpace a = false end.
Proof.
  induction s as [|c s (pre & Hs & Hpre & Hhead)]; simpl.
  - by exists [].
  - destruct (isWhiteSpace c) eqn:Hc.
    + exists (c :: pre). simpl. split; [by rewrite <-Hs|]. split; [by constructor|done].
    + exists []. by rewrite Hc.
Qed.

Lemma last_rev {A} (l : list A) : last (rev l) = head l.
Proof. destruct l as [|a l]; [done|]. simpl. apply last_snoc. Qed.

Lemma trimEnd_spec t :
  exists post,
    t = trimEnd t ++ post
    /\ Forall (fun c => isWhiteSpace c = true) post
    /\ match last (trimEnd t) with
       | None => trimEnd t = []
       | Some b => isWhiteSpace b = false
       end.
Proof.
  unfold trimEnd. destruct (trimStart_spec (rev t)) as (pre & Ht & Hpre & Hhead).
  exists (rev pre). split; [|split].
  - rewrite <-List.rev_app_distr, <-Ht. by rewrite List.rev_involutive.
  - by apply List.Forall_rev.
  - rewrite last_rev. by destruct (trimStart (rev t)).
Qed.

Lemma trim_spec s :
  exists pre post,
    s = pre ++ trim s ++ post
    /\ Forall (fun c => isWhiteSpace c = true) pre
    /\ Forall (fun c => isWhiteSpace c = true) post
    /\ (trim s = []
        \/ exists a b, head (trim s) = Some a /\ isWhiteSpace a = false
                       /\ last (trim s) = Some b /\ isWhiteSpace b = false).
Proof.
  unfold trim.
  destruct (trimStart_spec s) as (pre & Hs & Hpre & Hhead).
  destruct (trimEnd_spec (trimStart s)) as (post & Ht & Hpost & Hlast).
  exists pre, post. split; [by rewrite <-Ht|]. split; [done|]. split; [done|].
  destruct (trimEnd (trimStart s)) as [|a l] eqn:Hend; [by left|right].
  rewrite Ht in Hhead. simpl in Hhead.
  destruct (last (a :: l)) as [b|] eqn:Hb; [|done].
  by exists a, b.
Qed.

Lemma trim_blank s : Forall (fun c => isWhiteSpace c = true) s -> trim s = [].
Proof.
  intros Hs. unfold trim.
  assert (Hstart : trimStart s = []).
  { induction Hs as [|c s Hc _ IH]; [done|]. simpl. by rewrite Hc. }
  by rewrite Hstart.
Qed.

(** X7: a submit is ignored, with no message, no call of the service and no
    toast, exactly when nobody is signed in, the input holds only white space
    (or nothing), or a send is awaiting its answer; in particular an input
    made of white space alone never sends.  For a signed-in caller the
    handler accepts exactly when the submit button is enabled. *)
Theorem blank_submit_ignored (nowMs : N) (nowIso : jsstring) (s : State) :
  (Forall (fun c => isWhiteSpace c = true) (newMessage s) ->
   step s (Submit nowMs nowIso) = s /\ submitDisabled s = true)
  /\ (~ accepted s -> step s (Submit nowMs nowIso) = s)
  /\ (accepted s ->
      length (sendCalls (step s (Submit nowMs nowIso))) = S (length (sendCalls s))
      /\ newMessage (step s (Submit nowMs nowIso)) = [])
  /\ (is_Some (currentUser s) -> (submitDisabled s = false <-> accepted s)).
Proof.
  assert (Hrej : ~ accepted s -> step s (Submit nowMs nowIso) = s).
  { intros Hna. simpl. unfold sendMessage.
    destruct (currentUser s) as [user|] eqn:Huser; [|done].
    destruct (truthy (trim (newMessage s))) eqn:Htrim; [|done].
    destruct (isSending s) eqn:Hsend; [done|].
    destruct Hna. unfold accepted. rewrite Huser. by repeat split. }
  split; [|split; [done|split]].
  - intros Hblank. unfold submitDisabled. rewrite (trim_blank _ Hblank).
    split; [|done]. apply Hrej. intros (_ & Htrim & _).
    by rewrite (trim_blank _ Hblank) in Htrim.
  - intros ([user Huser] & Htrim & Hsend). simpl.
    destruct (sendMessage_accepted nowMs nowIso s user Huser Htrim Hsend)
      as (name & anonymous & _ & Hc & Hnew & _).
    rewrite Hc, length_app. simpl. split; [lia | done].
  - intros Huser. unfold submitDisabled, accepted.
    destruct (truthy (trim (newMessage s))); destruct (isSending s); simpl;
      split; try done; try (by intros (_ & ? & ?)).
Qed.

Lemma blank_submit_ignored_witness :
  let s := run mounted [Typed (js "   ")] in
  newMessage s = js "   " /\ step s (Submit 1700 (js "t0")) = s.
Proof.
  destruct (blank_submit_ignored 1700 (js "t0") (run mounted [Typed (js "   ")]))
    as (Hblank & _).
  destruct Hblank as [Hsame _].
  - vm_compute. repeat constructor.
  - split; [reflexivity | exact Hsame].
Defined.

(** X8: the text of an accepted submit, both in the pending message and in
    the call of the service, is the input without the white space around it:
    the input is white space, then the text, then white space, and the text
    begins and ends with a code unit that is not white space. *)
Theorem sent_text_is_trimmed (nowMs : N) (nowIso : jsstring) (s : State) :
  accepted s ->
  let s' := sendMessage nowMs nowIso s in
  exists (pending : ChatMessage.t) (c : SendCall) (pre post : jsstring) (a b : N),
    messages s' = messages s ++ [pending]
    /\ sendCalls s' = sendCalls s ++ [c]
    /\ messageText c = ChatMessage.content pending
    /\ newMessage s = pre ++ ChatMessage.content pending ++ post
    /\ Forall (fun u => isWhiteSpace u = true) pre
    /\ Forall (fun u => isWhiteSpace u = true) post
    /\ head (ChatMessage.content pending) = Some a /\ isWhiteSpace a = false
    /\ last (ChatMessage.content pending) = Some b /\ isWhiteSpace b = false.
Proof.
  intros ([user Huser] & Htrim & Hsend) s'.
  destruct (sendMessage_accepted nowMs nowIso s user Huser Htrim Hsend)
    as (name & anonymous & Hm & Hc & _).
  destruct (trim_spec (newMessage s)) as (pre & post & Hs & Hpre & Hpost & Hends).
  destruct Hends as [Hnil | (a & b & Ha & Hwa & Hb & Hwb)];
    [by rewrite Hnil in Htrim|].
  eexists _, _, pre, post, a, b.
  split; [exact Hm|]. split; [exact Hc|]. by repeat split.
Qed.

Lemma sent_text_is_trimmed_witness :
  exists (pending : ChatMessage.t) (c : SendCall) (pre post : jsstring) (a b : N),
    messages (sendMessage 1700 (js "t0") typedHello) = messages typedHello ++ [pending]
    /\ sendCalls (sendMessage 1700 (js "t0") typedHello) = sendCalls typedHello ++ [c]
    /\ messageText c = ChatMessage.content pending
    /\ newMessage typedHello = pre ++ ChatMessage.content pending ++ post
    /\ Forall (fun u => isWhiteSpace u = true) pre
    /\ Forall (fun u => isWhiteSpace u = true) post
    /\ head (ChatMessage.content pending) = Some a /\ isWhiteSpace a = false
    /\ last (ChatMessage.content pending) = Some b /\ isWhiteSpace b = false.
Proof.
  apply (sent_text_is_trimmed 1700 (js "t0") typedHello).
  split; [by eexists | split; reflexivity].
Defined.

(** X9: a submit accepted in a room other than "global" never touches the
    anonymous identity: no session username is resolved, generated or
    stored, the only random result taken is the one for the pending
    identifier, the pending message is signed with the chat display name and
    the caller's uid, and no username is passed to the service. *)
Theorem private_send_keeps_session (nowMs : N) (nowIso : jsstring) (s : State)
    (user : User) :
  currentUser s = Some user ->
  truthy (trim (newMessage s)) = true ->
  isSending s = false ->
  activeRoomId s <> js "global" ->
  let s' := sendMessage nowMs nowIso s in
  sessionView s' = sessionView s
  /\ drawn s' = S (drawn s)
  /\ exists (pending : ChatMessage.t) (c : SendCall),
       messages s' = messages s ++ [pending]
       /\ sendCalls s' = sendCalls s ++ [c]
       /\ ChatMessage.username pending = chatDisplayName s
       /\ ChatMessage.userId pending = uid user
       /\ ChatMessage.roomId pending = activeRoomId s
       /\ sentRoomId c = activeRoomId s
       /\ sentUsername c = None.
Proof.
  intros Huser Htrim Hsend Hroom s'. subst s'. unfold sendMessage.
  rewrite Huser, Htrim, Hsend. cbn [negb orb Math_random].
  rewrite !decide_False by done.
  split; [done|]. split; [done|]. by eexists _, _.
Qed.

Lemma private_send_keeps_session_witness :
  sessionView (sendMessage 1700 (js "t0") inRoom1) = sessionView inRoom1
  /\ setItemLog (sendMessage 1700 (js "t0") inRoom1) = [].
Proof.
  destruct (private_send_keeps_session 1700 (js "t0") inRoom1 alice)
    as (Hview & _); try reflexivity.
  - vm_compute. discriminate.
  - split; [exact Hview | reflexivity].
Defined.

(** ** Pending identifiers *)

Lemma digits_inj d d' : digits d = digits d' -> d = d'.
Proof.
  revert d'. induction d as [|d IH|d IH|d IH|d IH|d IH|d IH|d IH|d IH|d IH|d IH];
    intros [|d'|d'|d'|d'|d'|d'|d'|d'|d'|d']; simpl; intros [=]; f_equal; auto.
Qed.

Lemma numberToString_inj n n' : numberToString n = numberToString n' -> n = n'.
Proof.
  unfold numberToString. intros Heq. by apply Unsigned.to_uint_inj, digits_inj.
Qed.

Lemma digits_no_underscore d : 95 ∉ digits d.
Proof.
  induction d; simpl; [apply not_elem_of_nil|..];
    (rewrite not_elem_of_cons; split; [done|assumption]).
Qed.

Lemma split_at_separator {A} (x : A) (l1 l2 r1 r2 : list A) :
  x ∉ l1 -> x ∉ l2 -> l1 ++ x :: r1 = l2 ++ x :: r2 -> l1 = l2.
Proof.
  revert l2. induction l1 as [|a l1 IH]; intros [|b l2] H1 H2; simpl; intros [=].
  - done.
  - subst. by apply not_elem_of_cons in H2 as [? _].
  - subst. by apply not_elem_of_cons in H1 as [? _].
  - subst. f_equal. apply not_elem_of_cons in H1 as [_ H1].
    apply not_elem_of_cons in H2 as [_ H2]. by apply IH.
Qed.

(** X10: two submits accepted at different values of [Date.now()] give their
    pending messages different identifiers, whatever the random parts are:
    the identifier determines the time it was made at. *)
Theorem pending_ids_differ (nowMs nowMs' : N) (nowIso nowIso' : jsstring)
    (s t : State) :
  accepted s ->
  accepted t ->
  nowMs <> nowMs' ->
  exists (p q : ChatMessage.t),
    messages (sendMessage nowMs nowIso s) = messages s ++ [p]
    /\ messages (sendMessage nowMs' nowIso' t) = messages t ++ [q]
    /\ isPending p = true /\ isPending q = true
    /\ ChatMessage.id p <> ChatMessage.id q.
Proof.
  intros ([u Hu] & Htrim & Hsend) ([u' Hu'] & Htrim' & Hsend') Hne.
  destruct (sendMessage_accepted nowMs nowIso s u Hu Htrim Hsend)
    as (name & anonymous & Hm & _).
  destruct (sendMessage_accepted nowMs' nowIso' t u' Hu' Htrim' Hsend')
    as (name' & anonymous' & Hm' & _).
  eexists _, _. split; [exact Hm|]. split; [exact Hm'|].
  split; [apply startsWith_app|]. split; [apply startsWith_app|].
  cbn [ChatMessage.id]. unfold tempIdOf. intros Heq.
  apply app_inv_head in Heq.
  apply Hne, numberToString_inj.
  eapply (split_at_separator 95); [apply digits_no_underscore..|exact Heq].
Qed.

Lemma pending_ids_differ_witness :
  exists (p q : ChatMessage.t),
    messages (sendMessage 1700 (js "t0") typedHello) = messages typedHello ++ [p]
    /\ messages (sendMessage 1701 (js "t1") typedHello) = messages typedHello ++ [q]
    /\ isPending p = true /\ isPending q = true
    /\ ChatMessage.id p <> ChatMessage.id q.
Proof.
  apply (pending_ids_differ 1700 1701 (js "t0") (js "t1") typedHello typedHello).
  - split; [by eexists | split; reflexivity].
  - split; [by eexists | split; reflexivity].
  - discriminate.
Defined.

(** ** The session username across pages *)

(** X11: the session username outlives the page: once a page has resolved
    it, a page mounted later on the session storage that page left (for any
    signed-in user and random source) resolves the same username after any
    events, and never writes the storage. *)
Theorem session_username_survives_remount (user user' : option User)
    (storage : gmap (list N) (list N)) (rand rand' : nat -> Random)
    (es1 es2 es' : list Event) :
  let s1 := run (mount user storage rand) es1 in
  let first := getSessionUsername s1 s1 in
  let left := run first.2 es2 in
  let again := run (mount user' (sessionStorage left) rand') es' in
  let later := getSessionUsername again again in
  later.1 = first.1
  /\ setItemLog later.2 = []
  /\ sessionStorage later.2 = sessionStorage left.
Proof.
  intros s1 first left again later.
  assert (Hinv1 : sessionInv s1).
  { apply (run_keeps sessionInv sessionInv_view sessionInv_call), sessionInv_mount. }
  pose proof (sessionInv_settles s1 Hinv1) as Hset. fold first in Hset.
  assert (Hleft : settled first.1 left).
  { by apply (run_keeps (settled first.1) (settled_view _) (settled_call _)). }
  set (Q := fun t => settled first.1 t /\ setItemLog t = []
                     /\ sessionStorage t = sessionStorage left).
  assert (HQ : Q again).
  { apply (run_keeps Q).
    - intros t t' Hv [Ht Heq]. split; [by eapply settled_view|].
      unfold sessionView in Hv. injection Hv as _ -> ->. done.
    - intros snap t [Hsnap _] [Ht [Heq1 Heq2]]. split; [by apply settled_call|].
      by destruct (settled_result _ snap t Hsnap Ht) as [E|E]; rewrite E.
    - destruct Hleft as (Htr & Hst & _).
      unfold Q, settled, storedUsername, mount, initialState.
      cbn [currentUser activeRoomId].
      destruct user'; simpl; (split; [split; [done|split; [done|by left]]|done]). }
  destruct HQ as (Hagain & Hlog & Hsto).
  subst later.
  by destruct (settled_result _ again again Hagain Hagain) as [E|E]; rewrite E.
Qed.

(** ** The pending marker *)




(** ** The current room *)

Lemma find_app_id (rid : jsstring) (l1 l2 : list ChatRoom.t) :
  List.find (fun room => bool_decide (ChatRoom.id room = rid)) (l1 ++ l2)
  = match List.find (fun room => bool_decide (ChatRoom.id room = rid)) l1 with
    | Some room => Some room
    | None => List.find (fun room => bool_decide (ChatRoom.id room = rid)) l2
    end.
Proof.
  induction l1 as [|x l1 IH]; [done|]. simpl.
  by destruct (bool_decide (ChatRoom.id x = rid)).
Qed.

(** X13: after a [created] (or [joined]) event the room resolved as the
    current one is the first entry with the new room's id: the room just
    delivered when its id was not in the list, but the entry that was
    already there when it was, so a room delivered again does not replace
    what the page shows for it. *)
Theorem current_room_after_create (room : ChatRoom.t) (s : State) :
  let s' := handleRoomCreated room s in
  (ChatRoom.id room ∉ ChatRoom.id <$> rooms s -> getCurrentRoom s' = Some room)
  /\ (forall old,
        List.find (fun r => bool_decide (ChatRoom.id r = ChatRoom.id room)) (rooms s)
          = Some old ->
        getCurrentRoom s' = Some old)
  /\ getCurrentRoom (handleRoomJoined room s) = getCurrentRoom s'
  /\ is_Some (getCurrentRoom s').
Proof.
  cbv zeta. unfold getCurrentRoom, handleRoomJoined, handleRoomCreated.
  rewrite setActiveRoomId_active, setActiveRoomId_rooms. simpl rooms.
  rewrite find_app_id. simpl. rewrite bool_decide_eq_true_2 by done.
  split; [|split; [|split; [done|]]].
  - intros Habs.
    destruct (List.find _ (rooms s)) as [old|] eqn:Hfind; [|done].
    apply List.find_some in Hfind as [Hin Hid].
    apply bool_decide_eq_true in Hid. destruct Habs.
    rewrite <-Hid. apply list_elem_of_fmap_2. by apply list_elem_of_In.
  - by intros old ->.
  - by destruct (List.find _ (rooms s)).
Qed.

(** X14: after a successful load of the rooms, whatever the answer holds,
    a room with id "global" is in the list; so while the active room is
    "global" the current room is found, and it is the synthesized room when
    the answer had none. *)
Theorem global_room_resolvable (response_rooms : option (list ChatRoom.t))
    (now : jsstring) (s : State) :
  let s' := loadChatRooms_then response_rooms now s in
  js "global" ∈ ChatRoom.id <$> rooms s'
  /\ (activeRoomId s = js "global" ->
      exists g, getCurrentRoom s' = Some g /\ ChatRoom.id g = js "global"
        /\ (js "global" ∉ ChatRoom.id <$> default [] response_rooms ->
            g = defaultGlobalRoom now)).
Proof.
  cbv zeta.
  assert (Hfind : exists g,
            List.find (fun room => bool_decide (ChatRoom.id room = js "global"))
              (rooms (loadChatRooms_then response_rooms now s)) = Some g
            /\ (js "global" ∉ ChatRoom.id <$> default [] response_rooms ->
                g = defaultGlobalRoom now)).
  { unfold loadChatRooms_then.
    destruct response_rooms as [l|]; simpl.
    - destruct (List.find _ l) as [g|] eqn:Hl; simpl.
      + exists g. split; [done|]. intros Habs.
        apply List.find_some in Hl as [Hin Hid]. apply bool_decide_eq_true in Hid.
        destruct Habs. rewrite <-Hid. apply list_elem_of_fmap_2. by apply list_elem_of_In.
      + exists (defaultGlobalRoom now). rewrite find_app_id, Hl. done.
    - by exists (defaultGlobalRoom now). }
  destruct Hfind as (g & Hg & Hsynth).
  pose proof (List.find_some _ _ Hg) as [Hin Hid]. apply bool_decide_eq_true in Hid.
  split.
  - rewrite <-Hid. apply list_elem_of_fmap_2. by apply list_elem_of_In.
  - intros Hactive. exists g. split; [|done].
    unfold getCurrentRoom.
    assert (Hact : activeRoomId (loadChatRooms_then response_rooms now s) = js "global").
    { unfold loadChatRooms_then. by destruct (response_rooms ≫= _). }
    by rewrite Hact.
Qed.

(** * The landing page's rotating word *)

Lemma typewriterInv_step w :
  typewriterInv w ->
  exists w', typewriterEffect w = Some w' /\ typewriterInv w' /\ w' <> w.
Proof.
  intros (word & k & Hword & Hk & Htext).
  assert (Hlen : length (displayedText w) = k).
  { rewrite Htext, length_take. lia. }
  unfold typewriterEffect. rewrite Hword. simpl.
  destruct (isDeleting w) eqn:Hdel; simpl.
  - case_bool_decide as Hpos.
    + eexists. split; [done|]. split.
      * exists word, (k - 1)%nat. simpl. rewrite Hlen. repeat split; [done | lia].
      * intros Heq. apply (f_equal displayedText) in Heq. simpl in Heq.
        apply (f_equal length) in Heq. rewrite length_take in Heq. lia.
    + eexists. split; [done|]. split.
      * assert (Hnext : is_Some (rotatingWords
                          !! ((currentWordIndex w + 1) mod length rotatingWords)%nat)).
        { apply lookup_lt_is_Some. apply Nat.mod_upper_bound. simpl. lia. }
        destruct Hnext as [word' Hword'].
        exists word', 0%nat.
        cbn [currentWordIndex displayedText setCurrentWordIndex setIsDeleting].
        split; [exact Hword'|]. split; [lia|].
        destruct (displayedText w); [by rewrite take_0 | simpl in *; lia].
      * intros Heq. apply (f_equal isDeleting) in Heq. simpl in Heq. congruence.
  - case_bool_decide as Hlt.
    + eexists. split; [done|]. split.
      * exists word, (k + 1)%nat. simpl. rewrite Hlen. repeat split; [done | lia].
      * intros Heq. apply (f_equal displayedText) in Heq. simpl in Heq.
        apply (f_equal length) in Heq. rewrite length_take in Heq. lia.
    + rewrite bool_decide_eq_true_2 by lia.
      eexists. split; [done|]. split.
      * by exists word, k.
      * intros Heq. apply (f_equal isDeleting) in Heq. simpl in Heq. congruence.
Qed.

(** X15: started from the empty text on the first word, the animation
    never fails, however many steps it takes: the word index stays inside
    the list, the text shown is always the beginning of the current word,
    and every step changes the state, so the animation never comes to a
    halt. *)
Theorem typewriter_never_stops (n : nat) :
  exists w : Typewriter,
    typewriterRun n typewriterStart = Some w
    /\ (currentWordIndex w < length rotatingWords)%nat
    /\ (exists word, rotatingWords !! currentWordIndex w = Some word
                     /\ displayedText w `prefix_of` word)
    /\ (exists w', typewriterEffect w = Some w' /\ w' <> w).
Proof.
  assert (Hrun : forall n w, typewriterInv w ->
            exists w', typewriterRun n w = Some w' /\ typewriterInv w').
  { clear. induction n as [|n IH]; intros w Hw; [by exists w|].
    destruct (typewriterInv_step w Hw) as (w1 & Hstep & Hinv1 & _).
    destruct (IH w1 Hinv1) as (w' & Hrun & Hinv').
    exists w'. simpl. by rewrite Hstep. }
  assert (Hstart : typewriterInv typewriterStart).
  { exists (js "Life"), 0%nat. repeat split. simpl. lia. }
  destruct (Hrun n _ Hstart) as (w & Hw & Hinv).
  exists w. split; [done|].
  destruct (typewriterInv_step w Hinv) as (w' & Hstep & _ & Hne).
  destruct Hinv as (word & k & Hword & Hk & Htext).
  split; [by apply lookup_lt_is_Some|]. split; [|by exists w'].
  exists word. split; [done|]. rewrite Htext. apply prefix_take.
Qed.

(** X16: each word takes one step per letter to type, one step to switch
    to deleting, one step per letter to delete and one step to move on: from
    the empty text on the word at index [i], the whole word is shown after
    as many steps as it has letters, and after twice that plus two the
    animation stands at the empty text on the next word, the first one
    following the last.  The whole round of five words takes 76 steps. *)
Theorem typewriter_cycle (i : nat) (word : jsstring) :
  rotatingWords !! i = Some word ->
  let start := {| currentWordIndex := i; displayedText := []; isDeleting := false |} in
  typewriterRun (length word) start
    = Some {| currentWordIndex := i; displayedText := word; isDeleting := false |}
  /\ typewriterRun (2 * length word + 2) start
     = Some {| currentWordIndex := (i + 1) mod 5; displayedText := [];
               isDeleting := false |}
  /\ typewriterRun 76 typewriterStart = Some typewriterStart.
Proof.
  intros Hword.
  do 5 (destruct i as [|i]; [injection Hword as <-; vm_compute; done|]).
  done.
Qed.

Lemma typewriter_cycle_witness :
  typewriterRun 5
    {| currentWordIndex := 4; displayedText := []; isDeleting := false |}
  = Some {| currentWordIndex := 4; displayedText := js "Sleep"; isDeleting := false |}
  /\ typewriterRun 12
       {| currentWordIndex := 4; displayedText := []; isDeleting := false |}
     = Some typewriterStart.
Proof.
  destruct (typewriter_cycle 4 (js "Sleep") eq_refl) as (Htyped & Hround & _).
  split; [exact Htyped | exact Hround].
Defined.

(** * The room dialogs *)

Section Dialogs.
Variable toUpperCase : jsstring -> jsstring.

(** X17: submitting the create dialog with a name that is empty or white
    space only raises the toast "Room name is required" and does nothing
    else: no call of the service, no loading state, the page untouched.
    Otherwise exactly one call is made, with the trimmed name and with the
    trimmed code, or with no code when the code field holds nothing but
    white space; the fields and the page stay as they are. *)
Theorem create_submit_validates (c : Chat) :
  let d := createDialog c in
  let c' := createHandleSubmit c in
  (truthy (trim (CreateRoomDialog.name d)) = false ->
   c' = dialogToast c {| toastTitle := js "Error";
                         toastDescription := js "Room name is required";
                         toastVariant := Some (js "destructive") |})
  /\ (Forall (fun u => isWhiteSpace u = true) (CreateRoomDialog.name d) ->
      CreateRoomDialog.calls (createDialog c') = CreateRoomDialog.calls d
      /\ CreateRoomDialog.isLoading (createDialog c') = CreateRoomDialog.isLoading d)
  /\ (truthy (trim (CreateRoomDialog.name d)) = true ->
      exists code : option jsstring,
        CreateRoomDialog.calls (createDialog c')
          = CreateRoomDialog.calls d ++ [(trim (CreateRoomDialog.name d), code)]
        /\ (Forall (fun u => isWhiteSpace u = true) (CreateRoomDialog.customCode d) ->
            code = None)
        /\ (truthy (trim (CreateRoomDialog.customCode d)) = true ->
            code = Some (trim (CreateRoomDialog.customCode d)))
        /\ CreateRoomDialog.isLoading (createDialog c') = true
        /\ CreateRoomDialog.name (createDialog c') = CreateRoomDialog.name d
        /\ CreateRoomDialog.customCode (createDialog c') = CreateRoomDialog.customCode d
        /\ dialogToasts c' = dialogToasts c)
  /\ page c' = page c
  /\ showCreateDialog c' = showCreateDialog c.
Proof.
  cbv zeta. unfold createHandleSubmit.
  split; [|split; [|split; [|split]]].
  - by intros ->.
  - intros Hblank. by rewrite (trim_blank _ Hblank).
  - intros ->. simpl. eexists. split; [done|]. split; [|split; [|done]].
    + intros Hblank. by rewrite (trim_blank _ Hblank).
    + by intros ->.
  - by destruct (truthy (trim _)).
  - by destruct (truthy (trim _)).
Qed.

(** X18: when the awaited creation succeeds, the room is handed to the
    page, which appends it to the room list and makes it the active room;
    the dialog closes, its two fields are emptied, it stops loading, and one
    toast without a variant names the room in double quotes. *)
Theorem create_success_adds_room (c : Chat) (call : jsstring * option jsstring)
    (rest : list (jsstring * option jsstring)) (response_room : ChatRoom.t) :
  CreateRoomDialog.calls (createDialog c) = call :: rest ->
  let c' := dialogStep toUpperCase c (CreateResolved response_room) in
  rooms (page c') = rooms (page c) ++ [response_room]
  /\ activeRoomId (page c') = ChatRoom.id response_room
  /\ page c' = handleRoomCreated response_room (page c)
  /\ showCreateDialog c' = false
  /\ CreateRoomDialog.name (createDialog c') = []
  /\ CreateRoomDialog.customCode (createDialog c') = []
  /\ CreateRoomDialog.isLoading (createDialog c') = false
  /\ CreateRoomDialog.calls (createDialog c') = rest
  /\ dialogToasts c' = dialogToasts c ++
       [ {| toastTitle := js "Success";
            toastDescription :=
              js "Room " ++ [34] ++ ChatRoom.name response_room ++ [34]
              ++ js " created successfully!";
            toastVariant := None |} ]
  /\ joinDialog c' = joinDialog c /\ showJoinDialog c' = showJoinDialog c.
Proof.
  intros Hcalls. simpl. rewrite Hcalls. simpl.
  unfold handleRoomCreated. by rewrite setActiveRoomId_rooms, setActiveRoomId_active.
Qed.

(** X19: when the awaited creation fails, nothing is lost: the page is
    untouched, the dialog stays as shown with the name and the code the user
    typed, it stops loading, and one error toast is raised whose text is the
    message of the error, or "Failed to create room" when the error has no
    message; the text of the toast is never empty. *)
Theorem create_failure_keeps_input (c : Chat) (call : jsstring * option jsstring)
    (rest : list (jsstring * option jsstring)) (error_message : option jsstring) :
  CreateRoomDialog.calls (createDialog c) = call :: rest ->
  let c' := dialogStep toUpperCase c (CreateRejected error_message) in
  page c' = page c
  /\ showCreateDialog c' = showCreateDialog c
  /\ CreateRoomDialog.name (createDialog c') = CreateRoomDialog.name (createDialog c)
  /\ CreateRoomDialog.customCode (createDialog c')
     = CreateRoomDialog.customCode (createDialog c)
  /\ CreateRoomDialog.isLoading (createDialog c') = false
  /\ CreateRoomDialog.calls (createDialog c') = rest
  /\ exists text,
       dialogToasts c' = dialogToasts c ++
         [ {| toastTitle := js "Error"; toastDescription := text;
              toastVariant := Some (js "destructive") |} ]
       /\ truthy text = true
       /\ (truthy (default [] error_message) = true -> text = default [] error_message)
       /\ (truthy (default [] error_message) = false ->
           text = js "Failed to create room").
Proof.
  intros Hcalls. simpl. rewrite Hcalls. simpl.
  do 6 (split; [done|]). eexists. split; [done|].
  unfold orElse. by destruct (truthy (default [] error_message)) eqn:Hm.
Qed.

(** X20: a request to open or close the create dialog is ignored while the
    dialog is loading; otherwise the dialog is shown or hidden as asked,
    closing empties both fields and opening keeps them.  The page and the
    awaited calls are never touched. *)
Theorem create_open_change (newOpen : bool) (c : Chat) :
  let d := createDialog c in
  let c' := createHandleOpenChange newOpen c in
  (CreateRoomDialog.isLoading d = true -> c' = c)
  /\ (CreateRoomDialog.isLoading d = false ->
      showCreateDialog c' = newOpen
      /\ CreateRoomDialog.name (createDialog c')
         = (if newOpen then CreateRoomDialog.name d else [])
      /\ CreateRoomDialog.customCode (createDialog c')
         = (if newOpen then CreateRoomDialog.customCode d else []))
  /\ page c' = page c
  /\ CreateRoomDialog.calls (createDialog c') = CreateRoomDialog.calls d
  /\ CreateRoomDialog.isLoading (createDialog c') = CreateRoomDialog.isLoading d
  /\ dialogToasts c' = dialogToasts c.
Proof.
  cbv zeta. unfold createHandleOpenChange.
  destruct (CreateRoomDialog.isLoading (createDialog c)) eqn:Hl; simpl.
  - by rewrite Hl.
  - destruct newOpen; simpl; by rewrite ?Hl.
Qed.

(** X21: submitting the join dialog with a code that is empty or white
    space only raises the toast "Room code is required" and calls nothing;
    otherwise the service is called once with the trimmed code in upper
    case.  When the join succeeds the room is appended to the page's list
    and becomes the active room, the dialog closes and its field is
    emptied; when it fails the page and the typed code are kept. *)
Theorem join_submit_and_answer (c : Chat) (response_room : ChatRoom.t)
    (error_message : option jsstring) :
  let d := joinDialog c in
  (Forall (fun u => isWhiteSpace u = true) (JoinRoomDialog.roomCode d) ->
   joinHandleSubmit toUpperCase c
   = dialogToast c {| toastTitle := js "Error";
                      toastDescription := js "Room code is required";
                      toastVariant := Some (js "destructive") |})
  /\ (truthy (trim (JoinRoomDialog.roomCode d)) = true ->
      JoinRoomDialog.calls (joinDialog (joinHandleSubmit toUpperCase c))
        = JoinRoomDialog.calls d ++ [toUpperCase (trim (JoinRoomDialog.roomCode d))]
      /\ JoinRoomDialog.isLoading (joinDialog (joinHandleSubmit toUpperCase c)) = true
      /\ page (joinHandleSubmit toUpperCase c) = page c)
  /\ (let c' := joinHandleSubmit_then response_room c in
      rooms (page c') = rooms (page c) ++ [response_room]
      /\ activeRoomId (page c') = ChatRoom.id response_room
      /\ showJoinDialog c' = false
      /\ JoinRoomDialog.roomCode (joinDialog c') = []
      /\ JoinRoomDialog.isLoading (joinDialog c') = false)
  /\ (let c' := joinHandleSubmit_catch error_message c in
      page c' = page c
      /\ showJoinDialog c' = showJoinDialog c
      /\ JoinRoomDialog.roomCode (joinDialog c') = JoinRoomDialog.roomCode d
      /\ JoinRoomDialog.isLoading (joinDialog c') = false
      /\ length (dialogToasts c') = S (length (dialogToasts c))).
Proof.
  cbv zeta. split; [|split; [|split]].
  - intros Hblank. unfold joinHandleSubmit. by rewrite (trim_blank _ Hblank).
  - intros Hcode. unfold joinHandleSubmit. by rewrite Hcode.
  - simpl. unfold handleRoomJoined.
    by rewrite setActiveRoomId_rooms, setActiveRoomId_active.
  - simpl. rewrite length_app. simpl. repeat split. lia.
Qed.

Lemma dialogInv_step c e : dialogInv c -> dialogInv (dialogStep toUpperCase c e).
Proof.
  intros Hinv. pose proof Hinv as [Hc Hj]. unfold dialogInv.
  destruct e; simpl.
  - (* OpenCreate *) split; [|done].
    destruct (CreateRoomDialog.calls (createDialog c)) as [|x [|y l]]; try done.
    by destruct Hc.
  - split; [done|].
    destruct (JoinRoomDialog.calls (joinDialog c)) as [|x [|y l]]; try done.
    by destruct Hj.
  - by destruct (showCreateDialog c && _).
  - by destruct (showCreateDialog c && _).
  - destruct (showCreateDialog c && _) eqn:Hguard; [|exact Hinv].
    apply andb_prop in Hguard as [Hshow Hl]. apply negb_true_iff in Hl.
    unfold createHandleSubmit.
    destruct (truthy (trim _)); simpl; [|exact Hinv].
    split; [|done].
    destruct (CreateRoomDialog.calls (createDialog c)) as [|x [|y l]]; try done.
    destruct Hc. congruence.
  - destruct (showCreateDialog c) eqn:Hshow; [|exact Hinv].
    unfold createHandleOpenChange.
    destruct (CreateRoomDialog.isLoading (createDialog c)) eqn:Hl; simpl;
      [exact Hinv|].
    split; [|by destruct newOpen].
    destruct (CreateRoomDialog.calls (createDialog c)) as [|x [|y l]] eqn:Hcalls;
      [|by destruct Hc|done].
    destruct newOpen; simpl; by rewrite Hcalls.
  - destruct (CreateRoomDialog.calls (createDialog c)) as [|x [|y l]] eqn:Hcalls;
      simpl; [exact Hinv | | done].
    split; [done|].
    destruct (JoinRoomDialog.calls (joinDialog c)) as [|x' [|y' l']]; done.
  - destruct (CreateRoomDialog.calls (createDialog c)) as [|x [|y l]] eqn:Hcalls;
      simpl; [exact Hinv | | done].
    split; [done|].
    destruct (JoinRoomDialog.calls (joinDialog c)) as [|x' [|y' l']]; done.
  - by destruct (showJoinDialog c && _).
  - destruct (showJoinDialog c && _) eqn:Hguard; [|exact Hinv].
    apply andb_prop in Hguard as [Hshow Hl]. apply negb_true_iff in Hl.
    apply orb_false_elim in Hl as [Hl Hcode]. apply negb_false_iff in Hcode.
    unfold joinHandleSubmit. rewrite Hcode. simpl.
    split; [done|].
    destruct (JoinRoomDialog.calls (joinDialog c)) as [|x [|y l]]; try done.
    destruct Hj. congruence.
  - destruct (showJoinDialog c) eqn:Hshow; [|exact Hinv].
    unfold joinHandleOpenChange.
    destruct (JoinRoomDialog.isLoading (joinDialog c)) eqn:Hl; simpl;
      [exact Hinv|].
    split; [by destruct newOpen|].
    destruct (JoinRoomDialog.calls (joinDialog c)) as [|x [|y l]] eqn:Hcalls;
      [|by destruct Hj|done].
    destruct newOpen; simpl; by rewrite Hcalls.
  - destruct (JoinRoomDialog.calls (joinDialog c)) as [|x [|y l]] eqn:Hcalls;
      simpl; [exact Hinv | | done].
    split; [|done].
    destruct (CreateRoomDialog.calls (createDialog c)) as [|x' [|y' l']]; done.
  - destruct (JoinRoomDialog.calls (joinDialog c)) as [|x [|y l]] eqn:Hcalls;
      simpl; [exact Hinv | | done].
    split; [|done].
    destruct (CreateRoomDialog.calls (createDialog c)) as [|x' [|y' l']]; done.
  - done.
Qed.

(** X22: whatever the user does with the page and the two dialogs, each
    dialog awaits at most one answer, is marked as loading exactly while it
    does, and stays shown until the answer arrives: a request cannot be
    submitted twice, and a dialog cannot be dismissed with its request in
    flight. *)
Theorem dialogs_await_one_answer (s : State) (es : list DialogEvent) :
  let c := dialogRun toUpperCase (chatStart s) es in
  (length (CreateRoomDialog.calls (createDialog c)) <= 1)%nat
  /\ (CreateRoomDialog.isLoading (createDialog c) = true
      <-> CreateRoomDialog.calls (createDialog c) <> [])
  /\ (CreateRoomDialog.isLoading (createDialog c) = true -> showCreateDialog c = true)
  /\ (length (JoinRoomDialog.calls (joinDialog c)) <= 1)%nat
  /\ (JoinRoomDialog.isLoading (joinDialog c) = true
      <-> JoinRoomDialog.calls (joinDialog c) <> [])
  /\ (JoinRoomDialog.isLoading (joinDialog c) = true -> showJoinDialog c = true).
Proof.
  intros c.
  assert (Hinv : dialogInv c).
  { subst c. assert (Hstart : dialogInv (chatStart s)) by done.
    revert Hstart. generalize (chatStart s).
    induction es as [|e es IH]; intros c0 Hc0; [done|].
    simpl. by apply IH, dialogInv_step. }
  destruct Hinv as [Hc Hj].
  destruct (CreateRoomDialog.calls (createDialog c)) as [|x [|y l]]; [| |done];
    destruct (JoinRoomDialog.calls (joinDialog c)) as [|x' [|y' l']]; try done;
    simpl; destruct_and?; repeat split; try lia; try congruence; try done.
Qed.

End Dialogs.

Lemma create_success_adds_room_witness :
  let c := dialogRun asciiUpper (chatStart mounted)
             [OpenCreate; CreateNameTyped (js " Study "); CreateCodeTyped (js "study1");
              CreateSubmit] in
  CreateRoomDialog.calls (createDialog c) = [(js "Study", Some (js "STUDY1"))]
  /\ rooms (page (dialogStep asciiUpper c (CreateResolved room1))) = [room1]
  /\ showCreateDialog (dialogStep asciiUpper c (CreateResolved room1)) = false.
Proof.
  intros c.
  assert (Hcalls : CreateRoomDialog.calls (createDialog c)
                   = (js "Study", Some (js "STUDY1")) :: []) by (vm_compute; reflexivity).
  destruct (create_success_adds_room asciiUpper c _ _ room1 Hcalls)
    as (Hrooms & _ & _ & Hshow & _).
  split; [exact Hcalls|]. split; [exact Hrooms | exact Hshow].
Defined.

Lemma create_failure_keeps_input_witness :
  let c := dialogRun asciiUpper (chatStart mounted)
             [OpenCreate; CreateNameTyped (js " Study "); CreateSubmit] in
  let c' := dialogStep asciiUpper c (CreateRejected None) in
  page c' = page c /\ showCreateDialog c' = true
  /\ CreateRoomDialog.name (createDialog c') = js " Study ".
Proof.
  intros c c'.
  assert (Hcalls : CreateRoomDialog.calls (createDialog c)
                   = (js "Study", None) :: []) by (vm_compute; reflexivity).
  destruct (create_failure_keeps_input asciiUpper c _ _ None Hcalls)
    as (Hpage & Hshow & Hname & _).
  split; [exact Hpage|].
  split; [exact (eq_trans Hshow eq_refl) | exact (eq_trans Hname eq_refl)].
Defined.

(** * The generated username, and what leaves the rooms alone *)

Lemma digits_all_digit d : Forall (fun c => isDigit c = true) (digits d).
Proof. induction d; simpl; by constructor. Qed.

(** X23: with no username kept by the page and none (or an empty one) in
    the session storage, a call of [getSessionUsername] takes one random
    result and makes the name "Student" followed by the decimal digits of
    that result plus one; it stores the name under "chatUsername", where a
    lookup finds it again, logs that one write and keeps the name as the
    page's.  Different random results give different names. *)
Theorem session_username_generated (snap s t : State) :
  currentUsername snap = [] ->
  storedUsername s = [] ->
  storedUsername t = [] ->
  let n := scaled (entropy s (drawn s)) + 1 in
  let made := getSessionUsername snap s in
  made.1 = js "Student" ++ numberToString n
  /\ Forall (fun c => isDigit c = true) (drop 7 made.1)
  /\ sessionStorage made.2 !! js "chatUsername" = Some made.1
  /\ setItemLog made.2 = setItemLog s ++ [(js "chatUsername", made.1)]
  /\ drawn made.2 = S (drawn s)
  /\ currentUsername made.2 = made.1
  /\ (scaled (entropy t (drawn t)) <> scaled (entropy s (drawn s)) ->
      (getSessionUsername snap t).1 <> made.1).
Proof.
  intros Hcur Hs Ht n made.
  assert (Hgen : forall u, storedUsername u = [] ->
            getSessionUsername snap u
            = (js "Student" ++ numberToString (scaled (entropy u (drawn u)) + 1),
               setCurrentUsername
                 (setItem (Math_random u).2 (js "chatUsername")
                    (js "Student" ++ numberToString (scaled (entropy u (drawn u)) + 1)))
                 (js "Student" ++ numberToString (scaled (entropy u (drawn u)) + 1)))).
  { intros u Hu.
    destruct (getSessionUsername_cases snap u)
      as [[Htr _] | [(_ & Htr & _) | (_ & _ & E)]].
    - by rewrite Hcur in Htr.
    - by rewrite Hu in Htr.
    - exact E. }
  subst made. rewrite (Hgen s Hs), (Hgen t Ht). cbn [fst snd].
  split; [done|]. split; [apply digits_all_digit|]. split.
  - simpl. by rewrite lookup_insert_eq.
  - do 3 (split; [done|]). intros Hne Heq.
    apply app_inv_head, numberToString_inj in Heq. apply Hne. lia.
Qed.

Lemma session_username_generated_witness :
  (getSessionUsername mounted mounted).1 = js "Student42"
  /\ sessionStorage (getSessionUsername mounted mounted).2 !! js "chatUsername"
     = Some (js "Student42").
Proof.
  destruct (session_username_generated mounted mounted mounted)
    as (Hname & _ & Hstored & _); try reflexivity.
  split; [exact Hname | exact (eq_trans Hstored eq_refl)].
Defined.

(** X24: typing, submitting, the answers to sends, message histories and
    profile requests, and rendering never change the room list nor the
    active room: only the room events and the load of the rooms do. *)
Theorem rooms_change_only_by_room_events (s : State) (e : Event) :
  notRoomEvent e ->
  rooms (step s e) = rooms s /\ activeRoomId (step s e) = activeRoomId s.
Proof.
  intros He. destruct e; try done; simpl.
  - by destruct (isSending s || _).
  - by destruct (sendMessage_frame nowMs nowIso s) as (Hr & Ha & _).
  - by destruct (sendCalls s !! i).
  - by destruct (sendCalls s !! i).
  - by destruct (messagesCalls s !! i).
  - by destruct (messagesCalls s !! i).
  - by destruct (roomsCalls s).
  - by destruct (profileCalls s).
  - by destruct (profileCalls s).
  - by destruct (render_frame s) as (Hr & Ha & _).
Qed.

Lemma rooms_change_only_by_room_events_witness :
  rooms (step typedHello (Submit 1700 (js "t0"))) = rooms typedHello
  /\ activeRoomId (step typedHello (Submit 1700 (js "t0"))) = activeRoomId typedHello.
Proof. apply (rooms_change_only_by_room_events typedHello (Submit 1700 (js "t0"))). exact I. Defined.
